(** * PayVoice: the voice-command orchestration of the frontend

    A shallow embedding of the parts of the React frontend that the
    specification makes promises about.  The definitions come first:

    - [Js]: UTF-16 code units, truthiness, [String.prototype.toLowerCase],
      the state of a promise;
    - [Regex]: the one shape of regular expression the sources build,
      [new RegExp(`\\b${word}\\b`, flags)], with [test] and the global
      [replace]; [Rules]: what it means for a text to be left alone by
      such a replacement;
    - [VoiceInterface]: [detectLanguage], the [nameCorrections] pass of
      [transcribeAudio], the capture handlers ([toggleListening],
      [startListening]), the follow-up prompt of [handleVoiceCommand]
      and [speak]; [Reading]: the words the specification uses about
      [detectLanguage];
    - [Api]: the records of [services/api.js];
    - [PinModal]: [handleChange], [handleKeyDown], [handleSubmit];
    - [App]: [handleVoiceResponse] and the PIN modal callbacks of
      [App_Paytm.jsx];
    - [ElevenLabs]: [speakWithElevenLabs] and [speakWithBrowserTTS];
    - [PinFocus]: the inputs of the PIN modal in the document, with
      their [disabled] attribute and the focus; [Session]: the voice
      interface inside the application, [handleVoiceCommand] as a whole
      with [handleVoiceResponse] as its [onResponse].

    Then the lemmas about them ([RegexFacts], [LanguageFacts],
    [HandlerFacts], [AppFacts]), and last the properties of the
    specification, each under its number.

    An [async] handler is cut at its [await]: one function runs it up
    to the call, the next takes the outcome of the call as an argument.
    What a handler does outside the component's state (a call of
    [focus()], of [makePayment], of [speechSynthesis.speak]) is returned
    as a list of effects, or kept in the state record where later
    handlers depend on it. *)

From Stdlib Require Import String Ascii ZArith List Bool Lia.
Import ListNotations.
Open Scope Z_scope.

(* ================================================================== *)
(** ** JavaScript values and strings *)

Module Js.

(** A JavaScript string is a sequence of UTF-16 code units. *)
Definition jsString := list Z.

(** The code units of a literal whose characters are below U+0100. *)
Definition codeUnits (s : string) : jsString :=
  map (fun a => Z.of_N (N_of_ascii a)) (list_ascii_of_string s).

(** The values a JSON response field can hold, with a field that is
    absent read as [JUndefined]. *)
Inductive value : Type :=
| JUndefined
| JNull
| JBool (b : bool)
| JNum (n : Z)
| JStr (s : string).

(** [ToBoolean]: what [&&], [!] and [if] see. *)
Definition truthy (v : value) : bool :=
  match v with
  | JUndefined | JNull => false
  | JBool b => b
  | JNum n => negb (n =? 0)
  | JStr s => negb (String.eqb s EmptyString)
  end.

(** [String.prototype.toLowerCase], one code unit at a time.  It is
    written out wherever the result holds an ASCII code unit: the
    letters A-Z, U+212A KELVIN SIGN (lower case [k]) and U+0130
    (lower case [i] followed by U+0307).  Every other code unit lowers
    to code units outside ASCII; nothing below tells those apart, and
    they are kept as they are. *)
Definition toLowerCaseUnit (c : Z) : list Z :=
  if (65 <=? c) && (c <=? 90) then [c + 32]
  else if c =? 8490 then [107]
  else if c =? 304 then [105; 775]
  else [c].

Definition toLowerCase (s : jsString) : jsString := flat_map toLowerCaseUnit s.

(** The state of a promise. *)
Inductive settlement : Type :=
| Pending
| Resolved
| Rejected.

(** [resolve()] and [reject()] settle a promise that is still pending
    and leave a settled one as it is. *)
Definition resolve (p : settlement) : settlement :=
  match p with
  | Pending => Resolved
  | other => other
  end.

Definition reject (p : settlement) : settlement :=
  match p with
  | Pending => Rejected
  | other => other
  end.

End Js.

(* ================================================================== *)
(** ** Regular expressions of the shape [\bword\b] *)

Module Regex.

(** [IsWordChar] of a code unit: the class [\w] without the [u] flag. *)
Definition isWordChar (c : Z) : bool :=
  ((48 <=? c) && (c <=? 57)) || ((65 <=? c) && (c <=? 90)) || (c =? 95)
  || ((97 <=? c) && (c <=? 122)).

(** [IsWordChar] at an index: false before the start and after the end. *)
Definition isWordCharAt (c : option Z) : bool :=
  match c with
  | Some c => isWordChar c
  | None => false
  end.

(** The assertion [\b] between two neighbouring positions. *)
Definition wordBoundary (prev next : option Z) : bool :=
  xorb (isWordCharAt prev) (isWordCharAt next).

(** [Canonicalize] under the [i] flag without the [u] flag: the upper
    case of the code unit, unless that leaves a non-ASCII code unit in
    ASCII.  Written out for ASCII and for the Latin-1 letters with an
    upper case in Latin-1 (the patterns hold no others); the remaining
    code units canonicalize outside that range and are kept as they
    are. *)
Definition canonicalize (c : Z) : Z :=
  if (97 <=? c) && (c <=? 122) then c - 32
  else if (224 <=? c) && (c <=? 254) && negb (c =? 247) then c - 32
  else c.

Definition charMatches (p c : Z) : bool := canonicalize p =? canonicalize c.

(** The literal characters of the pattern against the front of [s]. *)
Fixpoint prefixCI (pat s : list Z) : bool :=
  match pat, s with
  | [], _ => true
  | _ :: _, [] => false
  | p :: pat', c :: s' => charMatches p c && prefixCI pat' s'
  end.

(** The last code unit of [l], or [d] when [l] is empty. *)
Definition lastOr (d : option Z) (l : list Z) : option Z :=
  fold_left (fun _ c => Some c) l d.

(** The whole pattern [\b pat \b] at one position: [prev] is the code
    unit before it, [s] the input from it on. *)
Definition matchHere (pat : list Z) (prev : option Z) (s : list Z) : bool :=
  wordBoundary prev (hd_error s)
  && prefixCI pat s
  && wordBoundary (lastOr prev (firstn (length pat) s))
                  (hd_error (skipn (length pat) s)).

(** [RegExp.prototype.test] without the [g] flag: the first position,
    from the left, where the pattern matches. *)
Fixpoint testFrom (pat : list Z) (prev : option Z) (s : list Z) : bool :=
  matchHere pat prev s
  || match s with
     | [] => false
     | c :: s' => testFrom pat (Some c) s'
     end.

Definition test (pat s : list Z) : bool := testFrom pat None s.

(** [String.prototype.replace] with the [g] flag and a replacement
    without [$]: matches are looked for from the left, each is replaced,
    and the search goes on after it ([skip] counts the code units of
    the current match still to drop).  For a pattern that is not
    empty. *)
Fixpoint replaceFrom (pat rep : list Z) (prev : option Z) (skip : nat)
    (s : list Z) : list Z :=
  match s with
  | [] => []
  | c :: s' =>
      match skip with
      | S n => replaceFrom pat rep (Some c) n s'
      | O =>
          if matchHere pat prev s
          then rep ++ replaceFrom pat rep (Some c) (Nat.pred (length pat)) s'
          else c :: replaceFrom pat rep (Some c) O s'
      end
  end.

Definition replaceAll (pat rep s : list Z) : list Z :=
  replaceFrom pat rep None O s.

End Regex.

(* ================================================================== *)
(** ** Rules [\bpat\b -> rep] and the texts they leave alone *)

Module Rules.

Import Regex.

(** Every match of [\b pat \b] in [s] (with [prev] before it) already
    reads [rep]. *)
Definition stableFrom (pat rep : list Z) (prev : option Z) (s : list Z)
    : Prop :=
  forall l r, s = l ++ r -> matchHere pat (lastOr prev l) r = true ->
              firstn (length pat) r = rep.

Definition stable (pat rep s : list Z) : Prop := stableFrom pat rep None s.

(** While a rule is applied, the code unit before the current position
    in the input ([pl]) and the one in the result ([pl']) agree on
    [\b]: they are alike, or the result is in the middle of a word. *)
Definition sameSide (pl pl' : option Z) (r : list Z) : Prop :=
  isWordCharAt pl = isWordCharAt pl'
  \/ (isWordCharAt pl' = true /\ isWordCharAt (hd_error r) = true).

Definition nonEmpty (l : list Z) : bool :=
  match l with
  | [] => false
  | _ :: _ => true
  end.

(** The replacement [rep'] is not found, up to case, inside [pat] past
    its first code unit. *)
Definition noInner (pat rep' : list Z) : bool :=
  forallb (fun t => negb (prefixCI rep' (skipn t pat)))
          (seq 1 (length pat - 1)).

(** If [rep'] is found at the front of [pat], it is all of it, and it
    is what [pat] is replaced by. *)
Definition atFront (pat rep rep' : list Z) : bool :=
  negb (prefixCI rep' pat)
  || (if list_eq_dec Z.eq_dec rep' rep then true else false)
     && (length rep' =? length pat)%nat.

(** Applying the rule [applied] creates no work for the rule [watched]. *)
Definition compatible (watched applied : list Z * list Z) : bool :=
  nonEmpty (fst watched) && nonEmpty (fst applied) && nonEmpty (snd applied)
  && forallb isWordChar (snd applied)
  && noInner (fst watched) (snd applied)
  && atFront (fst watched) (snd watched) (snd applied).

Definition tableOK (table : list (list Z * list Z)) : bool :=
  forallb (fun watched => forallb (compatible watched) table) table.

End Rules.

(* ================================================================== *)
(** ** VoiceInterface.jsx: text heuristics *)

Module VoiceInterface.

Import Js.

(** [/[ऀ-ॿ]/]: the Devanagari block. *)
Definition isDevanagari (c : Z) : bool := (2304 <=? c) && (c <=? 2431).

Definition hindiRegexTest (text : jsString) : bool := existsb isDevanagari text.

(** The list of [detectLanguage], repetitions included. *)
Definition strongHindiWords : list jsString :=
  map codeUnits
    ["ko"; "ka"; "ki"; "ke"; "hai"; "hain"; "bhejo"; "bhej"; "kitna"; "kya";
     "mera"; "tera"; "uska"; "karo"; "kaise"; "kyun"; "meri"; "aap"; "aapka";
     "sakti"; "sakta"; "kya"; "kyun"; "kaise"; "rupaye"; "rupaye"; "sau";
     "pachas"; "bees"; "pachees"; "paanch"; "das"]%string.

Definition hindiWordCount (text : jsString) : nat :=
  let lowerText := toLowerCase text in
  List.length (filter (fun word => Regex.test word lowerText) strongHindiWords).

Definition detectLanguage (text : jsString) : string :=
  if hindiRegexTest text then "hi"%string
  else if (1 <=? hindiWordCount text)%nat then "hi"%string
  else "en"%string.

(** [nameCorrections] of [transcribeAudio], in the order of
    [Object.entries] (insertion order: no key is an integer index).
    U+00FA is u-acute, U+00FE thorn, U+00F0 eth. *)
Definition nameCorrections : list (jsString * jsString) :=
  [ (codeUnits "nudj", codeUnits "Anuj");
    (codeUnits "anuj", codeUnits "Anuj");
    (codeUnits "grazie", codeUnits "Rahul");
    (codeUnits "grazi", codeUnits "Rahul");
    (codeUnits "r" ++ [250] ++ codeUnits "peas", codeUnits "rupees");
    (codeUnits "rupaye", codeUnits "rupees");
    (codeUnits "rupay", codeUnits "rupees");
    ([254; 97; 240], codeUnits "to");
    ([97; 240], codeUnits "to");
    (codeUnits "sau", codeUnits "100");
    (codeUnits "so", codeUnits "100");
    (codeUnits "pachas", codeUnits "50");
    (codeUnits "das", codeUnits "10");
    (codeUnits "bees", codeUnits "20");
    (codeUnits "pachees", codeUnits "25");
    (codeUnits "paanch", codeUnits "5") ].

(** The [forEach] over the table: each entry is a global,
    case-insensitive replace of [\bwrong\b] by [correct]. *)
Definition applyCorrections (table : list (jsString * jsString))
    (text : jsString) : jsString :=
  fold_left (fun correctedText entry =>
               Regex.replaceAll (fst entry) (snd entry) correctedText)
            table text.

Definition correctTranscript (text : jsString) : jsString :=
  applyCorrections nameCorrections text.

(** *** The component: capture, follow-up prompt and speech *)

(** [MediaRecorder.state]; the component never pauses a recorder. *)
Inductive recorderState : Type :=
| Recording
| Inactive.

Inductive entryType : Type :=
| UserEntry
| AssistantEntry
| ErrorEntry.

(** An entry of [commandHistory] (the timestamp is left out). *)
Record historyEntry : Type := {
  entryText : jsString;
  entryType_ : entryType
}.

(** What a handler closes over: the [const]s of the render that created
    it.  A handler keeps these values however the state moves on. *)
Record Render : Type := {
  r_isListening : bool;
  r_showTextInput : bool
}.

(** A pending [setTimeout(() => startListening(), delay)]. *)
Record timer : Type := {
  delay : Z;
  closure : Render
}.

(** The [useState] cells of the component, then what its handlers act
    on outside React: every [MediaRecorder] created so far,
    [mediaRecorderRef.current] as an index among them, the calls of
    [transcribeAudio] still awaiting their response, and the timers
    that have not fired. *)
Record State : Type := {
  isListening : bool;
  transcript : jsString;
  isSpeaking : bool;
  showTextInput : bool;
  commandHistory : list historyEntry;
  recorders : list recorderState;
  mediaRecorderRef : option nat;
  transcribing : nat;
  timers : list timer
}.

Definition initialState : State :=
  {| isListening := false; transcript := []; isSpeaking := false;
     showTextInput := false; commandHistory := []; recorders := [];
     mediaRecorderRef := None; transcribing := O; timers := [] |}.

Definition render (s : State) : Render :=
  {| r_isListening := isListening s; r_showTextInput := showTextInput s |}.

Definition setIsListening (b : bool) (s : State) : State :=
  {| isListening := b; transcript := transcript s; isSpeaking := isSpeaking s;
     showTextInput := showTextInput s; commandHistory := commandHistory s;
     recorders := recorders s; mediaRecorderRef := mediaRecorderRef s;
     transcribing := transcribing s; timers := timers s |}.

Definition setTranscript (t : jsString) (s : State) : State :=
  {| isListening := isListening s; transcript := t; isSpeaking := isSpeaking s;
     showTextInput := showTextInput s; commandHistory := commandHistory s;
     recorders := recorders s; mediaRecorderRef := mediaRecorderRef s;
     transcribing := transcribing s; timers := timers s |}.

Definition setIsSpeaking (b : bool) (s : State) : State :=
  {| isListening := isListening s; transcript := transcript s; isSpeaking := b;
     showTextInput := showTextInput s; commandHistory := commandHistory s;
     recorders := recorders s; mediaRecorderRef := mediaRecorderRef s;
     transcribing := transcribing s; timers := timers s |}.

Definition setShowTextInput (b : bool) (s : State) : State :=
  {| isListening := isListening s; transcript := transcript s;
     isSpeaking := isSpeaking s; showTextInput := b;
     commandHistory := commandHistory s; recorders := recorders s;
     mediaRecorderRef := mediaRecorderRef s; transcribing := transcribing s;
     timers := timers s |}.

(** [setCommandHistory(prev => [...prev, entry])]. *)
Definition pushHistory (e : historyEntry) (s : State) : State :=
  {| isListening := isListening s; transcript := transcript s;
     isSpeaking := isSpeaking s; showTextInput := showTextInput s;
     commandHistory := commandHistory s ++ [e]; recorders := recorders s;
     mediaRecorderRef := mediaRecorderRef s; transcribing := transcribing s;
     timers := timers s |}.

Definition withRecorders (rs : list recorderState) (ref : option nat)
    (s : State) : State :=
  {| isListening := isListening s; transcript := transcript s;
     isSpeaking := isSpeaking s; showTextInput := showTextInput s;
     commandHistory := commandHistory s; recorders := rs;
     mediaRecorderRef := ref; transcribing := transcribing s;
     timers := timers s |}.

Definition withTranscribing (n : nat) (s : State) : State :=
  {| isListening := isListening s; transcript := transcript s;
     isSpeaking := isSpeaking s; showTextInput := showTextInput s;
     commandHistory := commandHistory s; recorders := recorders s;
     mediaRecorderRef := mediaRecorderRef s; transcribing := n;
     timers := timers s |}.

Definition withTimers (ts : list timer) (s : State) : State :=
  {| isListening := isListening s; transcript := transcript s;
     isSpeaking := isSpeaking s; showTextInput := showTextInput s;
     commandHistory := commandHistory s; recorders := recorders s;
     mediaRecorderRef := mediaRecorderRef s; transcribing := transcribing s;
     timers := ts |}.

(** [navigator.mediaDevices.getUserMedia] resolves or rejects. *)
Inductive userMedia : Type :=
| Granted
| Denied.

Fixpoint setRecorder (rs : list recorderState) (i : nat) (v : recorderState)
    : list recorderState :=
  match rs, i with
  | [], _ => []
  | _ :: rest, O => v :: rest
  | r :: rest, S n => r :: setRecorder rest n v
  end.

Definition isRecording (r : recorderState) : bool :=
  match r with
  | Recording => true
  | Inactive => false
  end.

(** The recorders whose [state] is ['recording']. *)
Definition activeRecordings (s : State) : nat :=
  length (filter isRecording (recorders s)).

(** [toggleListening] as created by the render [r]; the [await] of
    [getUserMedia] is taken in one step with its outcome [media]. *)
Definition toggleListening (r : Render) (media : userMedia) (s : State)
    : State :=
  if r_isListening r then
    let s1 :=
      match mediaRecorderRef s with
      | Some i =>
          if isRecording (nth i (recorders s) Inactive)
          then withRecorders (setRecorder (recorders s) i Inactive)
                             (mediaRecorderRef s) s
          else s
      | None => s
      end in
    setIsListening false s1
  else
    let s1 := setTranscript [] s in
    match media with
    | Granted =>
        setIsListening true
          (withRecorders (recorders s1 ++ [Recording])
                         (Some (length (recorders s1))) s1)
    | Denied =>
        setShowTextInput true
          (pushHistory
             {| entryText :=
                  codeUnits "Could not access microphone. Please check permissions or use text input.";
                entryType_ := ErrorEntry |} s1)
    end.

Definition startListening (r : Render) (media : userMedia) (s : State)
    : State :=
  if negb (r_isListening r) && negb (r_showTextInput r)
  then toggleListening r media s
  else s.

(** [mediaRecorder.onstop]: [transcribeAudio] up to its [await fetch]. *)
Definition onstop (s : State) : State :=
  withTranscribing (S (transcribing s))
    (setTranscript (codeUnits "Transcribing...") s).

(** The capture state of the specification, read off the component. *)
Inductive capturePhase : Type :=
| PhaseIdle
| PhaseRecording
| PhaseTranscribing.

Definition phase (s : State) : capturePhase :=
  if (1 <=? activeRecordings s)%nat then PhaseRecording
  else if (1 <=? transcribing s)%nat then PhaseTranscribing
  else PhaseIdle.

(** The component after one tap on the microphone, and after a second
    tap and the recorder's [stop] event. *)
Definition recordingState : State :=
  toggleListening (render initialState) Granted initialState.

Definition transcribingState : State :=
  onstop (toggleListening (render recordingState) Granted recordingState).

(** The component switched to text input. *)
Definition textModeState : State := setShowTextInput true initialState.

(** [String.prototype.includes] and [endsWith]. *)
Fixpoint startsWith (needle hay : jsString) : bool :=
  match needle, hay with
  | [], _ => true
  | _ :: _, [] => false
  | n :: needle', h :: hay' => (n =? h) && startsWith needle' hay'
  end.

Fixpoint includes (needle hay : jsString) : bool :=
  startsWith needle hay
  || match hay with
     | [] => false
     | _ :: hay' => includes needle hay'
     end.

Definition endsWith (needle hay : jsString) : bool :=
  startsWith (rev needle) (rev hay).

Definition followUpPhrases : list jsString :=
  map codeUnits
    ["phone number"; "say the"; "tell me"; "please tell"; "10-digit";
     "is this correct"; "say yes or no"; "would you like to add"]%string.

Definition needsVoiceInput (responseMessage : jsString) : bool :=
  let message := toLowerCase responseMessage in
  existsb (fun phrase => includes phrase message) followUpPhrases
  || endsWith (codeUnits "?") message.

(** The first statement of [handleVoiceCommand]: the command enters
    the history. *)
Definition handleVoiceCommand_begin (text : jsString) (s : State) : State :=
  pushHistory {| entryText := text; entryType_ := UserEntry |} s.

(** The end of [handleVoiceCommand], after [await speak(...)]: the
    timer is set by the handler of render [r]. *)
Definition scheduleFollowUp (r : Render) (responseMessage : jsString)
    (s : State) : State :=
  if needsVoiceInput responseMessage
  then withTimers (timers s ++ [{| delay := 500; closure := r |}]) s
  else s.

(** The first pending timer fires: its callback runs [startListening]
    of the render it was created in. *)
Definition fireTimer (media : userMedia) (s : State) : State :=
  match timers s with
  | [] => s
  | t :: rest => startListening (closure t) media (withTimers rest s)
  end.

(** A voice of [speechSynthesis.getVoices()], by name. *)
Record Voices : Type := {
  voice_en : option string;
  voice_hi : option string
}.

Record utterance : Type := {
  utteranceText : jsString;
  utteranceVoice : option string;
  utteranceLang : option string
}.

Definition buildUtterance (voices : Voices) (text : jsString) : utterance :=
  let isHindi := hindiRegexTest text in
  match (if isHindi then voice_hi voices else None), voice_en voices with
  | Some hi, _ =>
      {| utteranceText := text; utteranceVoice := Some hi;
         utteranceLang := Some "hi-IN"%string |}
  | None, Some en =>
      {| utteranceText := text; utteranceVoice := Some en;
         utteranceLang := Some "en-US"%string |}
  | None, None =>
      {| utteranceText := text; utteranceVoice := None;
         utteranceLang := None |}
  end.

(** A call of [speak] under way: the component, the promise it
    returned, and the utterance handed to [synth.speak], whose [onend]
    and [onerror] are set. *)
Record speaking : Type := {
  speakState : State;
  speakPromise : settlement;
  spoken : option utterance
}.

(** The executor of [new Promise((resolve) => ...)]: the [try] block
    runs to its end, or a statement of it throws (no
    [speechSynthesis], no [SpeechSynthesisUtterance]) and the [catch]
    block runs. *)
Definition speak_setup (voices : Voices) (text : jsString) (throws : bool)
    (s : State) : speaking :=
  let s1 := setIsSpeaking true s in
  if throws then
    {| speakState := setIsSpeaking false s1;
       speakPromise := resolve Pending; spoken := None |}
  else
    {| speakState := s1; speakPromise := Pending;
       spoken := Some (buildUtterance voices text) |}.

Inductive utteranceEvent : Type :=
| OnEnd
| OnError.

(** [utterance.onend] and [utterance.onerror]. *)
Definition speak_event (e : utteranceEvent) (sp : speaking) : speaking :=
  match spoken sp with
  | None => sp
  | Some _ =>
      match e with
      | OnEnd | OnError =>
          {| speakState := setIsSpeaking false (speakState sp);
             speakPromise := resolve (speakPromise sp);
             spoken := spoken sp |}
      end
  end.

(** What the browser does with one call: the set-up throws, or the
    utterance is queued and ends, or it is queued and fires [error]. *)
Inductive speechOutcome : Type :=
| SetupThrows
| UtteranceEnds
| UtteranceErrors.

Definition speak (voices : Voices) (text : jsString) (outcome : speechOutcome)
    (s : State) : speaking :=
  match outcome with
  | SetupThrows => speak_setup voices text true s
  | UtteranceEnds => speak_event OnEnd (speak_setup voices text false s)
  | UtteranceErrors => speak_event OnError (speak_setup voices text false s)
  end.

End VoiceInterface.

(* ================================================================== *)
(** ** The words of the specification about [detectLanguage] *)

Module Reading.

Import Js Regex Rules.

(** The reading of the specification: [word] stands in [text] as a
    whole word when the code units around it, if any, are not word
    characters... *)
Definition wholeWordIn (word text : jsString) : Prop :=
  exists pre post,
    text = pre ++ word ++ post
    /\ isWordCharAt (lastOr None pre) = false
    /\ isWordCharAt (hd_error post) = false.

(** ...and case is ignored by comparing with the lower-cased text. *)
Definition wholeWordCI (word text : jsString) : Prop :=
  wholeWordIn word (toLowerCase text).

Definition hasDevanagari (text : jsString) : Prop :=
  exists c, In c text /\ 2304 <= c <= 2431.

(** A code unit that separates words in the text as typed: not a word
    character, and neither of the two letters outside ASCII whose lower
    case is an ASCII letter (U+212A, U+0130). *)
Definition isSeparator (c : Z) : bool :=
  negb (isWordChar c) && negb (c =? 8490) && negb (c =? 304).

(** [word] occurs in [text], in any letter case, between separators
    or the ends of the text. *)
Definition standaloneWord (word text : jsString) : Prop :=
  exists pre occurrence post,
    text = pre ++ occurrence ++ post
    /\ toLowerCase occurrence = word
    /\ (forall c, lastOr None pre = Some c -> isSeparator c = true)
    /\ (forall c, hd_error post = Some c -> isSeparator c = true).

Definition isLowerLetter (c : Z) : bool := (97 <=? c) && (c <=? 122).

Definition isUpperLetter (c : Z) : bool := (65 <=? c) && (c <=? 90).

Definition plainWord (word : jsString) : bool :=
  nonEmpty word && forallb isLowerLetter word.

End Reading.

(* ================================================================== *)
(** ** services/api.js: the shapes that cross the wire *)

Module Api.

Import Js.

(** The pending payment of the session: [{recipient, amount}]. *)
Record Payment : Type := {
  recipient : value;
  amount : value
}.

(** [data] of a [/process_voice] response. *)
Record voiceData : Type := {
  data_recipient : value;
  data_amount : value;
  requires_pin : value
}.

(** [{intent, message, data}]; [data] may be missing. *)
Record voiceResponse : Type := {
  intent : string;
  message : jsString;
  data : option voiceData
}.

(** [data] of a [/payment] response. *)
Record paymentData : Type := {
  new_balance : value;
  nudge : value
}.

(** [{success, message, data}] of [/payment]. *)
Record paymentResponse : Type := {
  success : value;
  paymentMessage : option string;
  paymentData_ : option paymentData
}.

(** [await makePayment(...)]: the response, or the rethrown transport
    error. *)
Inductive paymentOutcome : Type :=
| Returned (response : paymentResponse)
| Thrown.

End Api.

(* ================================================================== *)
(** ** PinModal.jsx *)

Module PinModal.

Import Js Api.

Record Props : Type := {
  pendingPayment : Payment;
  userId : value
}.

Record State : Type := {
  pin : list string;
  error : string;
  loading : bool
}.

Definition initialState : State :=
  {| pin := [""; ""; ""; ""]%string; error := ""%string; loading := false |}.

(** What a handler does besides setting state: a call of [focus()] on
    the input at [index], a call of [makePayment], a call of the
    [onSuccess] prop. *)
Inductive effect : Type :=
| Focus (index : nat)
| MakePayment (recipient amount : value) (pinValue : string) (userId : value)
| OnSuccess (data : option paymentData).

(** [/^\d+$/.test(value)]. *)
Definition isDigit (a : ascii) : bool :=
  let n := nat_of_ascii a in ((48 <=? n) && (n <=? 57))%nat.

Fixpoint allDigits (s : string) : bool :=
  match s with
  | EmptyString => true
  | String a rest => isDigit a && allDigits rest
  end.

Definition digitsOnly (s : string) : bool :=
  negb (String.eqb s "") && allDigits s.

(** [newPin[index] = value]; past the end the array grows, and the
    holes join as the empty string. *)
Fixpoint setAt (l : list string) (index : nat) (v : string) : list string :=
  match index, l with
  | O, [] => [v]
  | O, _ :: rest => v :: rest
  | S n, [] => ""%string :: setAt [] n v
  | S n, x :: rest => x :: setAt rest n v
  end.

(** [pin.join('')]. *)
Definition join (l : list string) : string := String.concat "" l.

(** The parameter [pinValue = pin.join('')]: [None] is the call
    without argument, made by the button. *)
Definition submittedPin (argument : option string) (s : State) : string :=
  match argument with
  | Some v => v
  | None => join (pin s)
  end.

(** [handleSubmit] up to [await makePayment]. *)
Definition handleSubmit_begin (props : Props) (argument : option string)
    (s : State) : State * list effect :=
  let pinValue := submittedPin argument s in
  if negb (String.length pinValue =? 4)%nat then
    ({| pin := pin s; error := "Please enter 4-digit PIN"; loading := loading s |},
     [])
  else
    ({| pin := pin s; error := ""; loading := true |},
     [MakePayment (recipient (pendingPayment props))
                  (amount (pendingPayment props)) pinValue (userId props)]).

(** [response.message || 'Payment failed']. *)
Definition failureMessage (m : option string) : string :=
  match m with
  | Some m => if String.eqb m "" then "Payment failed"%string else m
  | None => "Payment failed"%string
  end.

(** [handleSubmit] from the outcome of [makePayment] on, [finally]
    included. *)
Definition handleSubmit_resume (outcome : paymentOutcome) (s : State)
    : State * list effect :=
  match outcome with
  | Returned response =>
      if truthy (success response) then
        ({| pin := pin s; error := error s; loading := false |},
         [OnSuccess (paymentData_ response)])
      else
        ({| pin := [""; ""; ""; ""]%string;
            error := failureMessage (paymentMessage response);
            loading := false |},
         [Focus 0])
  | Thrown =>
      ({| pin := [""; ""; ""; ""]%string;
          error := "Payment failed. Please try again.";
          loading := false |},
       [Focus 0])
  end.

(** The attempt failed: a response whose [success] is falsy, or a
    transport error. *)
Definition paymentFailed (outcome : paymentOutcome) : bool :=
  match outcome with
  | Returned response => negb (truthy (success response))
  | Thrown => true
  end.

(** One whole call of [handleSubmit]. *)
Definition handleSubmit (props : Props) (argument : option string)
    (outcome : paymentOutcome) (s : State) : State * list effect :=
  let (s1, e1) := handleSubmit_begin props argument s in
  match e1 with
  | [] => (s1, [])
  | _ :: _ => let (s2, e2) := handleSubmit_resume outcome s1 in (s2, e1 ++ e2)
  end.

(** [handleChange], with [handleSubmit] taken up to its [await]. *)
Definition handleChange (props : Props) (index : nat) (value : string)
    (s : State) : State * list effect :=
  if (1 <? String.length value)%nat then (s, [])
  else if negb (String.eqb value "") && negb (digitsOnly value) then (s, [])
  else
    let newPin := setAt (pin s) index value in
    let s1 := {| pin := newPin; error := ""; loading := loading s |} in
    let hasValue := negb (String.eqb value "") in
    let e1 := if hasValue && (index <? 3)%nat then [Focus (index + 1)] else [] in
    if (index =? 3)%nat && hasValue then
      let (s2, e2) := handleSubmit_begin props (Some (join newPin)) s1 in
      (s2, e1 ++ e2)
    else (s1, e1).

(** [handleKeyDown]. *)
Definition handleKeyDown (index : nat) (key : string) (s : State)
    : list effect :=
  if String.eqb key "Backspace"
     && String.eqb (nth index (pin s) ""%string) ""
     && (0 <? index)%nat
  then [Focus (index - 1)]
  else [].

(** The handlers run one after the other, each on the state the
    previous one left. *)
Fixpoint typeDigits (props : Props) (index : nat) (digits : list string)
    (s : State) : State * list effect :=
  match digits with
  | [] => (s, [])
  | d :: rest =>
      let (s1, e1) := handleChange props index d s in
      let (s2, e2) := typeDigits props (S index) rest s1 in
      (s2, e1 ++ e2)
  end.

End PinModal.

(* ================================================================== *)
(** ** App_Paytm.jsx: the modals and the pending payment *)

Module App.

Import Js Api.

Record State : Type := {
  showVoiceModal : bool;
  showPinModal : bool;
  pendingPayment : option Payment;
  showSuccessModal : bool;
  successPayment : option Payment;
  investmentNudge : value;
  (** calls of [loadUserData()] made so far *)
  refreshes : nat
}.

Definition initialState : State :=
  {| showVoiceModal := false; showPinModal := false; pendingPayment := None;
     showSuccessModal := false; successPayment := None;
     investmentNudge := JNull; refreshes := O |}.

Definition setShowVoiceModal (b : bool) (s : State) : State :=
  {| showVoiceModal := b; showPinModal := showPinModal s;
     pendingPayment := pendingPayment s;
     showSuccessModal := showSuccessModal s;
     successPayment := successPayment s;
     investmentNudge := investmentNudge s; refreshes := refreshes s |}.

Definition setShowPinModal (b : bool) (s : State) : State :=
  {| showVoiceModal := showVoiceModal s; showPinModal := b;
     pendingPayment := pendingPayment s;
     showSuccessModal := showSuccessModal s;
     successPayment := successPayment s;
     investmentNudge := investmentNudge s; refreshes := refreshes s |}.

Definition setPendingPayment (p : option Payment) (s : State) : State :=
  {| showVoiceModal := showVoiceModal s; showPinModal := showPinModal s;
     pendingPayment := p;
     showSuccessModal := showSuccessModal s;
     successPayment := successPayment s;
     investmentNudge := investmentNudge s; refreshes := refreshes s |}.

Definition setShowSuccessModal (b : bool) (s : State) : State :=
  {| showVoiceModal := showVoiceModal s; showPinModal := showPinModal s;
     pendingPayment := pendingPayment s;
     showSuccessModal := b;
     successPayment := successPayment s;
     investmentNudge := investmentNudge s; refreshes := refreshes s |}.

Definition setSuccessPayment (p : option Payment) (s : State) : State :=
  {| showVoiceModal := showVoiceModal s; showPinModal := showPinModal s;
     pendingPayment := pendingPayment s;
     showSuccessModal := showSuccessModal s;
     successPayment := p;
     investmentNudge := investmentNudge s; refreshes := refreshes s |}.

Definition setInvestmentNudge (v : value) (s : State) : State :=
  {| showVoiceModal := showVoiceModal s; showPinModal := showPinModal s;
     pendingPayment := pendingPayment s;
     showSuccessModal := showSuccessModal s;
     successPayment := successPayment s;
     investmentNudge := v; refreshes := refreshes s |}.

Definition loadUserData (s : State) : State :=
  {| showVoiceModal := showVoiceModal s; showPinModal := showPinModal s;
     pendingPayment := pendingPayment s;
     showSuccessModal := showSuccessModal s;
     successPayment := successPayment s;
     investmentNudge := investmentNudge s; refreshes := S (refreshes s) |}.

(** [response.data?.field]. *)
Definition field (d : option voiceData) (f : voiceData -> value) : value :=
  match d with
  | Some d => f d
  | None => JUndefined
  end.

Definition pinIntent (i : string) : bool :=
  String.eqb i "payment" || String.eqb i "phone_confirmation"
  || String.eqb i "phone_account_creation".

Definition needsPin (response : voiceResponse) : bool :=
  pinIntent (intent response) && truthy (field (data response) requires_pin).

(** [{recipient: response.data.recipient, amount: response.data.amount}],
    read only where [needsPin] holds, so that [data] is an object. *)
Definition paymentOf (response : voiceResponse) : Payment :=
  {| recipient := field (data response) data_recipient;
     amount := field (data response) data_amount |}.

Definition handleVoiceResponse (response : voiceResponse) (s : State) : State :=
  if needsPin response then
    setShowPinModal true
      (setShowVoiceModal false
         (setPendingPayment (Some (paymentOf response)) s))
  else if String.eqb (intent response) "balance"
          || String.eqb (intent response) "history"
  then loadUserData s
  else s.

(** [onSuccess] of the PIN modal (the reload after a second is left
    out). *)
Definition onPinSuccess (d : option paymentData) (s : State) : State :=
  let s1 :=
    setPendingPayment None
      (setShowSuccessModal true
         (setSuccessPayment (pendingPayment s)
            (setShowPinModal false s))) in
  match d with
  | Some d => if truthy (nudge d) then setInvestmentNudge (nudge d) s1 else s1
  | None => s1
  end.

(** [onClose] of the PIN modal. *)
Definition onPinClose (s : State) : State :=
  setPendingPayment None (setShowPinModal false s).

(** [handlePaymentConfirm] from the outcome of [makePayment] on; no
    component is given this handler. *)
Definition handlePaymentConfirm (outcome : paymentOutcome) (s : State) : State :=
  match outcome with
  | Returned response =>
      if truthy (success response) then
        setPendingPayment None
          (setShowSuccessModal true
             (setSuccessPayment (pendingPayment s)
                (setShowPinModal false s)))
      else s
  | Thrown => s
  end.

(** The handlers of the file that touch the modals or the pending
    payment (toasts and the reloads set for a second later are left
    out). *)
Inductive event : Type :=
| PayClick
| VoiceModalClose
| VoiceResponse (response : voiceResponse)
| PinSuccess (d : option paymentData)
| PinClose
| PaymentConfirm (outcome : paymentOutcome)
| SuccessModalClose
| NudgeInvest
| NudgeClose.

Definition step (s : State) (e : event) : State :=
  match e with
  | PayClick => setShowVoiceModal true s
  | VoiceModalClose => setShowVoiceModal false s
  | VoiceResponse response => handleVoiceResponse response s
  | PinSuccess d => onPinSuccess d s
  | PinClose => onPinClose s
  | PaymentConfirm outcome => handlePaymentConfirm outcome s
  | SuccessModalClose => setSuccessPayment None (setShowSuccessModal false s)
  | NudgeInvest => setInvestmentNudge JNull s
  | NudgeClose => setInvestmentNudge JNull s
  end.



End App.

(* ================================================================== *)
(** ** services/elevenlabs.js *)

Module ElevenLabs.

Import Js.

Definition VOICE_ID_en : string := "EXAVITQu4vr4xnSDxMaL".
Definition VOICE_ID_hi : string := "jsCqWAovK2LkecY7zXl4".

(** The keys an object literal inherits from [Object.prototype]: for
    these [VOICE_IDS[language]] is an inherited function or object,
    which is truthy. *)
Definition objectPrototypeKeys : list string :=
  ["constructor"; "hasOwnProperty"; "isPrototypeOf"; "propertyIsEnumerable";
   "toLocaleString"; "toString"; "valueOf"; "__proto__"; "__defineGetter__";
   "__defineSetter__"; "__lookupGetter__"; "__lookupSetter__"]%string.

(** What the look-up of a voice gives: one of the two ids of
    [VOICE_IDS], or the property inherited under [key]. *)
Inductive voice : Type :=
| OwnId (id : string)
| InheritedProperty (key : string).

(** [VOICE_IDS[language] || VOICE_IDS.en]. *)
Definition voiceIdFor (language : string) : voice :=
  if String.eqb language "en" then OwnId VOICE_ID_en
  else if String.eqb language "hi" then OwnId VOICE_ID_hi
  else if existsb (String.eqb language) objectPrototypeKeys
  then InheritedProperty language
  else OwnId VOICE_ID_en.

(** [await fetch(...)] rejects, or resolves with a response whose [ok]
    is given and whose body [blob()] can be read or not. *)
Inductive fetchOutcome : Type :=
| FetchRejected
| FetchResponded (ok : bool) (bodyRead : bool).

(** The [Audio] element fires [ended], fires [error], or fires
    neither. *)
Inductive audioOutcome : Type :=
| AudioEnded
| AudioErrored
| AudioSilent.

(** The queued utterance fires [end], fires [error], or fires
    neither. *)
Inductive utteranceOutcome : Type :=
| UtteranceEnded
| UtteranceErrored
| UtteranceSilent.

Record Env : Type := {
  ELEVENLABS_API_KEY : option string;
  fetched : fetchOutcome;
  audio : audioOutcome;
  speechSynthesisInWindow : bool;
  uttered : utteranceOutcome
}.

Inductive effect : Type :=
| FetchSpeech (voiceId : voice)
| PlayAudio
| CallBrowserTTS (text : jsString) (language : string)
| SynthSpeak (text : jsString) (lang : string).

Record Run : Type := {
  effects : list effect;
  promise : settlement
}.

Definition speakWithBrowserTTS (env : Env) (text : jsString)
    (language : string) : Run :=
  if negb (speechSynthesisInWindow env) then
    {| effects := [CallBrowserTTS text language]; promise := reject Pending |}
  else
    {| effects :=
         [CallBrowserTTS text language;
          SynthSpeak text (if String.eqb language "hi" then "hi-IN"
                           else "en-US")%string];
       promise := match uttered env with
                  | UtteranceEnded => resolve Pending
                  | UtteranceErrored => reject Pending
                  | UtteranceSilent => Pending
                  end |}.

Definition after (es : list effect) (r : Run) : Run :=
  {| effects := es ++ effects r; promise := promise r |}.

Definition keyConfigured (k : option string) : bool :=
  match k with
  | Some k => negb (String.eqb k "")
  | None => false
  end.

Definition speakWithElevenLabs (env : Env) (text : jsString)
    (language : string) : Run :=
  if negb (keyConfigured (ELEVENLABS_API_KEY env)) then
    speakWithBrowserTTS env text language
  else
    let request := FetchSpeech (voiceIdFor language) in
    match fetched env with
    | FetchRejected => after [request] (speakWithBrowserTTS env text language)
    | FetchResponded false _ =>
        after [request] (speakWithBrowserTTS env text language)
    | FetchResponded true false =>
        after [request] (speakWithBrowserTTS env text language)
    | FetchResponded true true =>
        {| effects := [request; PlayAudio];
           promise := match audio env with
                      | AudioEnded => resolve Pending
                      | AudioErrored => reject Pending
                      | AudioSilent => Pending
                      end |}
    end.

(** The remote call fails: no key, a network error, a response that
    is not [ok], or a body that cannot be read. *)
Definition remoteFails (env : Env) : bool :=
  negb (keyConfigured (ELEVENLABS_API_KEY env))
  || match fetched env with
     | FetchRejected => true
     | FetchResponded ok bodyRead => negb ok || negb bodyRead
     end.

End ElevenLabs.

(* ================================================================== *)
(** ** PinModal.jsx: the inputs in the document *)

Module PinFocus.

Import Js Api PinModal.

(** The four inputs as React last rendered them, each with
    [disabled={loading}], and the index of the one that has focus. *)
Record Dom : Type := {
  disabled : bool;
  activeElement : option nat
}.

(** [inputRefs.current[index]?.focus()]: an input that is disabled
    cannot be focused, and the call does nothing. *)
Definition focus (index : nat) (dom : Dom) : Dom :=
  if disabled dom then dom
  else {| disabled := disabled dom; activeElement := Some index |}.

Definition perform (dom : Dom) (e : effect) : Dom :=
  match e with
  | Focus index => focus index dom
  | MakePayment _ _ _ _ => dom
  | OnSuccess _ => dom
  end.

(** React renders the state [s]; focus stays where it is. *)
Definition commit (s : State) (dom : Dom) : Dom :=
  {| disabled := loading s; activeElement := activeElement dom |}.

(** A stretch of a handler that runs without a render in between (up
    to its [await], or from it to its end): its calls of [focus()] act
    on the document as it was rendered before, then React renders the
    state the stretch leaves. *)
Definition stretch (ran : State * list effect) (dom : Dom) : State * Dom :=
  (fst ran, commit (fst ran) (fold_left perform (snd ran) dom)).

(** The modal once mounted: [useEffect] has focused the first input. *)
Definition mounted : State * Dom :=
  (initialState, focus 0 {| disabled := loading initialState;
                            activeElement := None |}).

Definition handleChange (props : Props) (index : nat) (value : string)
    (m : State * Dom) : State * Dom :=
  stretch (PinModal.handleChange props index value (fst m)) (snd m).

Definition handleSubmit_begin (props : Props) (argument : option string)
    (m : State * Dom) : State * Dom :=
  stretch (PinModal.handleSubmit_begin props argument (fst m)) (snd m).

Definition handleSubmit_resume (outcome : paymentOutcome) (m : State * Dom)
    : State * Dom :=
  stretch (PinModal.handleSubmit_resume outcome (fst m)) (snd m).

(** The digits typed one after the other from the input [index] on,
    each into the input that follows the one before. *)
Fixpoint typeDigits (props : Props) (index : nat) (digits : list string)
    (m : State * Dom) : State * Dom :=
  match digits with
  | [] => m
  | d :: rest => typeDigits props (S index) rest (handleChange props index d m)
  end.

End PinFocus.

(* ================================================================== *)
(** ** The voice modal inside the application *)

Module Session.

Import Js Api VoiceInterface.

(** The application and the voice interface it shows in the voice
    modal.  Closing the modal unmounts the component, which cancels
    nothing: its timers and recorders live on, and the handlers they
    call still run (their [setState] calls then do nothing that can be
    seen; the cells are kept here as the handlers set them). *)
Record State : Type := {
  app : App.State;
  voice : VoiceInterface.State
}.







End Session.

(* ================================================================== *)
(** ** Facts about the regular expressions *)

Module RegexFacts.

Import Regex Rules.

Lemma lastOr_app (d : option Z) (l1 l2 : list Z) :
  lastOr d (l1 ++ l2) = lastOr (lastOr d l1) l2.
Proof. unfold lastOr. apply fold_left_app. Qed.

Lemma lastOr_cons (d : option Z) (c : Z) (l : list Z) :
  lastOr d (c :: l) = lastOr (Some c) l.
Proof. reflexivity. Qed.

Lemma lastOr_some_in (c : Z) (l : list Z) :
  exists x, lastOr (Some c) l = Some x /\ In x (c :: l).
Proof.
  revert c. induction l as [|a l IH]; intros c.
  - exists c. split; [reflexivity | now left].
  - rewrite lastOr_cons. destruct (IH a) as [x [Hx Hin]].
    exists x. split; [exact Hx | now right].
Qed.

Lemma prefixCI_nil (pat : list Z) : pat <> [] -> prefixCI pat [] = false.
Proof. destruct pat; [congruence | reflexivity]. Qed.

Lemma matchHere_nil (pat : list Z) (prev : option Z) :
  pat <> [] -> matchHere pat prev [] = false.
Proof.
  intros H. unfold matchHere. rewrite (prefixCI_nil pat H).
  now rewrite andb_false_r.
Qed.

Lemma matchHere_parts (pat : list Z) (prev : option Z) (s : list Z) :
  matchHere pat prev s = true <->
  wordBoundary prev (hd_error s) = true /\ prefixCI pat s = true /\
  wordBoundary (lastOr prev (firstn (length pat) s))
               (hd_error (skipn (length pat) s)) = true.
Proof.
  unfold matchHere. rewrite !andb_true_iff. tauto.
Qed.

(** Dropping the rest of a match is the same as starting again after it. *)
Lemma replaceFrom_skip (pat rep : list Z) (n : nat) :
  forall (s : list Z) (prev : option Z),
    replaceFrom pat rep prev n s =
    replaceFrom pat rep (lastOr prev (firstn n s)) O (skipn n s).
Proof.
  induction n as [|n IH]; intros s prev.
  - reflexivity.
  - destruct s as [|c s]; [reflexivity|].
    cbn [replaceFrom firstn skipn]. rewrite IH. reflexivity.
Qed.

Lemma replaceFrom_hit (pat rep : list Z) (prev : option Z) (s : list Z) :
  pat <> [] -> matchHere pat prev s = true ->
  replaceFrom pat rep prev O s =
  rep ++ replaceFrom pat rep (lastOr prev (firstn (length pat) s)) O
           (skipn (length pat) s).
Proof.
  intros Hpat Hm. destruct s as [|c s].
  - now rewrite matchHere_nil in Hm.
  - cbn [replaceFrom]. rewrite Hm. rewrite replaceFrom_skip.
    destruct pat as [|p pat]; [congruence|]. reflexivity.
Qed.

Lemma replaceFrom_miss (pat rep : list Z) (prev : option Z) (c : Z)
    (s : list Z) :
  matchHere pat prev (c :: s) = false ->
  replaceFrom pat rep prev O (c :: s) = c :: replaceFrom pat rep (Some c) O s.
Proof. intros Hm. cbn [replaceFrom]. now rewrite Hm. Qed.

(** *** Texts a rule leaves alone *)

Section Stability.

Variables pat rep : list Z.

Lemma stableFrom_app (prev : option Z) (x y : list Z) :
  stableFrom pat rep prev (x ++ y) -> stableFrom pat rep (lastOr prev x) y.
Proof.
  intros H l r Hy Hm. apply (H (x ++ l) r).
  - rewrite Hy. now rewrite app_assoc.
  - now rewrite lastOr_app.
Qed.

Lemma stableFrom_fixed :
  pat <> [] ->
  forall (n : nat) (s : list Z) (prev : option Z),
    (length s <= n)%nat -> stableFrom pat rep prev s ->
    replaceFrom pat rep prev O s = s.
Proof.
  intros Hpat. induction n as [|n IH]; intros s prev Hlen Hst.
  - destruct s; [reflexivity | simpl in Hlen; lia].
  - destruct s as [|c s]; [reflexivity|].
    destruct (matchHere pat prev (c :: s)) eqn:Hm.
    + rewrite replaceFrom_hit by assumption.
      pose proof (Hst [] (c :: s) eq_refl Hm) as Hrep.
      rewrite IH.
      * rewrite <- Hrep. apply firstn_skipn.
      * rewrite length_skipn. destruct pat; [congruence|]. simpl in *. lia.
      * apply stableFrom_app. now rewrite firstn_skipn.
    + rewrite replaceFrom_miss by assumption. f_equal.
      apply IH; [simpl in Hlen; lia|].
      apply (stableFrom_app prev [c] s). exact Hst.
Qed.

Lemma stable_fixed (s : list Z) :
  pat <> [] -> stable pat rep s -> replaceAll pat rep s = s.
Proof.
  intros Hpat Hst. unfold replaceAll.
  now apply (stableFrom_fixed Hpat (length s)).
Qed.

End Stability.

(** *** One rule after another *)

Lemma charMatches_sym (p c : Z) : charMatches p c = charMatches c p.
Proof. unfold charMatches. apply Z.eqb_sym. Qed.

Lemma prefixCI_swap (a b out : list Z) :
  prefixCI a (b ++ out) = true -> (length b <= length a)%nat ->
  prefixCI b a = true.
Proof.
  revert b. induction a as [|p a IH]; intros [|c b] H Hlen; simpl in *;
    try reflexivity; try lia.
  apply andb_true_iff in H. destruct H as [H1 H2].
  rewrite charMatches_sym, H1. simpl. apply IH; [exact H2 | lia].
Qed.

(** No [\b] holds inside a run of word characters. *)
Lemma no_boundary_inside (x z rest : list Z) (d : option Z) :
  forallb isWordChar (x ++ z) = true -> x <> [] -> z <> [] ->
  wordBoundary (lastOr d x) (hd_error (z ++ rest)) = false.
Proof.
  intros Hw Hx Hz. rewrite forallb_app in Hw.
  apply andb_true_iff in Hw. destruct Hw as [Hwx Hwz].
  destruct x as [|a x]; [congruence|]. destruct z as [|b z]; [congruence|].
  rewrite lastOr_cons. destruct (lastOr_some_in a x) as [y [Hy Hin]].
  rewrite Hy. unfold wordBoundary. simpl.
  rewrite forallb_forall in Hwx. rewrite (Hwx y Hin).
  simpl in Hwz. apply andb_true_iff in Hwz. destruct Hwz as [Hb _].
  now rewrite Hb.
Qed.

Lemma firstn_app_short (n : nat) (a b : list Z) :
  (n <= length a)%nat -> firstn n (a ++ b) = firstn n a.
Proof.
  intros H. rewrite firstn_app. replace (n - length a)%nat with O by lia.
  simpl. apply app_nil_r.
Qed.

Lemma skipn_app_short (n : nat) (a b : list Z) :
  (n <= length a)%nat -> skipn n (a ++ b) = skipn n a ++ b.
Proof.
  intros H. rewrite skipn_app. replace (n - length a)%nat with O by lia.
  reflexivity.
Qed.

Section Preservation.

(** The rule [(pat', rep')] is applied to a text; [(pat, rep)] is the
    rule whose matches are watched. *)
Variables pat rep pat' rep' : list Z.

Hypothesis Hpat : pat <> [].
Hypothesis Hpat' : pat' <> [].
Hypothesis Hrep' : rep' <> [].
Hypothesis Hword : forallb isWordChar rep' = true.
Hypothesis HnoInner :
  forall t, (0 < t < length pat)%nat -> prefixCI rep' (skipn t pat) = false.
Hypothesis HatFront :
  prefixCI rep' pat = true -> rep' = rep /\ length rep' = length pat.

Lemma cut_replacement (n : nat) (q : option Z) (out : list Z) :
  (0 < n < length rep')%nat ->
  wordBoundary (lastOr q (firstn n (rep' ++ out)))
               (hd_error (skipn n (rep' ++ out))) = false.
Proof.
  intros Hn. rewrite firstn_app_short, skipn_app_short by lia.
  apply no_boundary_inside.
  - rewrite firstn_skipn. exact Hword.
  - intros H. apply (f_equal (@length Z)) in H.
    rewrite length_firstn in H. simpl in H. lia.
  - intros H. apply (f_equal (@length Z)) in H.
    rewrite length_skipn in H. simpl in H. lia.
Qed.

(** A replacement cannot begin inside a match of [pat]. *)
Lemma inserted_inside (kd kk : list Z) (q : option Z) (out : list Z) :
  pat = kd ++ kk -> kd <> [] -> kk <> [] ->
  prefixCI kk (rep' ++ out) = true ->
  wordBoundary (lastOr q (firstn (length kk) (rep' ++ out)))
               (hd_error (skipn (length kk) (rep' ++ out))) = true ->
  False.
Proof.
  intros Hsplit Hkd Hkk Hp Hb.
  assert (0 < length kd)%nat by (destruct kd; [congruence | simpl; lia]).
  assert (0 < length kk)%nat by (destruct kk; [congruence | simpl; lia]).
  destruct (Nat.le_gt_cases (length rep') (length kk)) as [Hle | Hgt].
  - apply prefixCI_swap in Hp; [|exact Hle].
    assert (Hno : prefixCI rep' (skipn (length kd) pat) = false).
    { apply HnoInner. rewrite Hsplit, length_app. lia. }
    rewrite Hsplit, skipn_app, skipn_all, Nat.sub_diag in Hno.
    simpl in Hno. congruence.
  - rewrite cut_replacement in Hb by lia. discriminate.
Qed.

(** A match of [pat] that begins with a replacement is that replacement. *)
Lemma inserted_front (q : option Z) (out : list Z) :
  prefixCI pat (rep' ++ out) = true ->
  wordBoundary (lastOr q (firstn (length pat) (rep' ++ out)))
               (hd_error (skipn (length pat) (rep' ++ out))) = true ->
  firstn (length pat) (rep' ++ out) = rep.
Proof.
  intros Hp Hb.
  assert (0 < length pat)%nat by (destruct pat; [congruence | simpl; lia]).
  destruct (Nat.le_gt_cases (length rep') (length pat)) as [Hle | Hgt].
  - apply prefixCI_swap in Hp; [|exact Hle].
    destruct (HatFront Hp) as [Heq Hlen].
    rewrite <- Hlen, firstn_app_short, firstn_all by lia. exact Heq.
  - rewrite cut_replacement in Hb by lia. discriminate.
Qed.

(** Past its first code unit, a match of [pat] in the result was copied
    from the input, and so was the [\b] that ends it. *)
Lemma copy_tracking :
  forall (kk kd : list Z), pat = kd ++ kk -> kd <> [] ->
  forall (r : list Z) (q : option Z),
    prefixCI kk (replaceFrom pat' rep' q O r) = true ->
    wordBoundary
      (lastOr q (firstn (length kk) (replaceFrom pat' rep' q O r)))
      (hd_error (skipn (length kk) (replaceFrom pat' rep' q O r))) = true ->
    prefixCI kk r = true
    /\ firstn (length kk) r = firstn (length kk) (replaceFrom pat' rep' q O r)
    /\ wordBoundary (lastOr q (firstn (length kk) r))
                    (hd_error (skipn (length kk) r)) = true.
Proof.
  induction kk as [|p kk IH]; intros kd Hsplit Hkd r q Hp Hb.
  - simpl in *. split; [reflexivity|]. split; [reflexivity|].
    destruct r as [|c r]; [exact Hb|].
    destruct (matchHere pat' q (c :: r)) eqn:Hm.
    + apply matchHere_parts in Hm. tauto.
    + rewrite replaceFrom_miss in Hb by assumption. exact Hb.
  - destruct r as [|c r]; [simpl in Hp; discriminate|].
    destruct (matchHere pat' q (c :: r)) eqn:Hm.
    + rewrite replaceFrom_hit in Hp, Hb by assumption.
      exfalso.
      eapply (inserted_inside kd (p :: kk) q);
        [exact Hsplit | exact Hkd | discriminate | exact Hp | exact Hb].
    + rewrite replaceFrom_miss in Hp, Hb |- * by assumption.
      simpl in Hp. apply andb_true_iff in Hp. destruct Hp as [Hc Hp].
      cbn [length firstn skipn] in Hb |- *. rewrite lastOr_cons in Hb |- *.
      destruct (IH (kd ++ [p])) with (r := r) (q := Some c)
        as [H1 [H2 H3]]; try assumption.
      * rewrite <- app_assoc. exact Hsplit.
      * destruct kd; discriminate.
      * split; [simpl; now rewrite Hc, H1|].
        split; [now rewrite H2 | exact H3].
Qed.

Lemma replacement_ends_word (d : option Z) :
  isWordCharAt (lastOr d rep') = true.
Proof.
  destruct rep' as [|a rp]; [congruence|]. rewrite lastOr_cons.
  destruct (lastOr_some_in a rp) as [w [Hw1 Hw2]]. rewrite Hw1. simpl.
  rewrite forallb_forall in Hword. now apply Hword.
Qed.

Lemma preserved_from :
  forall (n : nat) (r : list Z), (length r <= n)%nat ->
  forall (pl pl' : option Z),
    sameSide pl pl' r ->
    (forall l2 r2, r = l2 ++ r2 ->
       matchHere pat' (lastOr pl l2) r2 = false ->
       matchHere pat (lastOr pl l2) r2 = true ->
       firstn (length pat) r2 = rep) ->
    stableFrom pat rep pl' (replaceFrom pat' rep' pl O r).
Proof.
  induction n as [|n IH]; intros r Hlen pl pl' Hside Hin x y Hxy Hm.
  - destruct r; [|simpl in Hlen; lia]. simpl in Hxy.
    symmetry in Hxy. apply app_eq_nil in Hxy. destruct Hxy as [_ Hy].
    subst y. now rewrite matchHere_nil in Hm.
  - destruct r as [|c r].
    { simpl in Hxy. symmetry in Hxy. apply app_eq_nil in Hxy.
      destruct Hxy as [_ Hy]. subst y. now rewrite matchHere_nil in Hm. }
    destruct (matchHere pat' pl (c :: r)) eqn:Hhit.
    + (* the rule fires here *)
      rewrite replaceFrom_hit in Hxy by assumption.
      set (m := firstn (length pat') (c :: r)) in *.
      set (r2 := skipn (length pat') (c :: r)) in *.
      assert (Hr : c :: r = m ++ r2) by (symmetry; apply firstn_skipn).
      assert (Hshort : (length r2 <= n)%nat).
      { subst r2. rewrite length_skipn. destruct pat'; [congruence|].
        simpl in *. lia. }
      assert (Hrest : forall z, replaceFrom pat' rep' (lastOr pl m) O r2 = z ++ y ->
                       lastOr pl' x = lastOr (lastOr pl' rep') z ->
                       firstn (length pat) y = rep).
      { intros z Hz Hprev.
        apply (IH r2 Hshort (lastOr pl m) (lastOr pl' rep')) with (l := z);
          try assumption.
        - destruct (isWordCharAt (lastOr pl m)) eqn:Hw.
          + left. now rewrite replacement_ends_word.
          + right. split; [apply replacement_ends_word|].
            apply matchHere_parts in Hhit. destruct Hhit as [_ [_ Hb]].
            fold m r2 in Hb. unfold wordBoundary in Hb. rewrite Hw in Hb.
            exact Hb.
        - intros l2 r3 Hs Hmiss Hmt. apply (Hin (m ++ l2) r3).
          + rewrite Hr, Hs. now rewrite app_assoc.
          + now rewrite lastOr_app.
          + now rewrite lastOr_app.
        - now rewrite <- Hprev. }
      apply app_eq_app in Hxy. destruct Hxy as [z [[Hrp Hy] | [Hx Hz]]].
      2: { apply (Hrest z Hz). rewrite Hx. apply lastOr_app. }
      * destruct z as [|b z].
        { rewrite app_nil_r in Hrp. simpl in Hy. subst x.
          apply (Hrest []); [now rewrite Hy | reflexivity]. }
        destruct x as [|a x].
        -- simpl in Hrp. subst y. rewrite <- Hrp in Hm.
           apply matchHere_parts in Hm. destruct Hm as [_ [Hp Hb]].
           rewrite <- Hrp. now apply (inserted_front pl').
        -- exfalso. apply matchHere_parts in Hm. destruct Hm as [Hb _].
           rewrite Hy in Hb.
           rewrite (no_boundary_inside (a :: x) (b :: z)) in Hb;
             try discriminate. now rewrite <- Hrp.
    + (* the code unit is copied *)
      rewrite replaceFrom_miss in Hxy by assumption.
      destruct x as [|a x].
      * simpl in Hxy. subst y. simpl in Hm.
        pose proof Hm as Hm'. apply matchHere_parts in Hm'.
        destruct Hm' as [Hb0 [Hp Hb1]].
        assert (Hb : wordBoundary pl (Some c) = true).
        { destruct Hside as [Hs | [Hs1 Hs2]].
          - unfold wordBoundary in *. now rewrite Hs.
          - unfold wordBoundary in Hb0. simpl in Hb0, Hs2.
            rewrite Hs1, Hs2 in Hb0. discriminate. }
        assert (Epat : exists p kk, pat = p :: kk).
        { destruct pat as [|p kk]; [congruence | eauto]. }
        destruct Epat as [p [kk Epat]]. rewrite Epat in Hp, Hb1 |- *.
        simpl in Hp. apply andb_true_iff in Hp. destruct Hp as [Hc Hp].
        cbn [length firstn skipn] in Hb1. rewrite lastOr_cons in Hb1.
        destruct (copy_tracking kk [p]) with (r := r) (q := Some c)
          as [H1 [H2 H3]]; try assumption; try reflexivity; try discriminate.
        cbn [length firstn]. rewrite <- H2.
        assert (Hmt : matchHere pat pl (c :: r) = true).
        { rewrite Epat. apply matchHere_parts. cbn [prefixCI].
          rewrite Hc, H1. cbn [length firstn skipn]. rewrite lastOr_cons.
          auto. }
        pose proof (Hin [] (c :: r) eq_refl Hhit Hmt) as Hfin.
        rewrite Epat in Hfin. exact Hfin.
      * simpl in Hxy. injection Hxy as Ha Hxy. subst a.
        apply (IH r) with (pl := Some c) (pl' := Some c) (l := x);
          try assumption.
        -- simpl in Hlen. lia.
        -- now left.
        -- intros l2 r3 Hs Hmiss Hmt. apply (Hin (c :: l2) r3);
             [now rewrite Hs | exact Hmiss | exact Hmt].
Qed.

End Preservation.

(** *** A table of rules *)

Lemma nonEmpty_true (l : list Z) : nonEmpty l = true -> l <> [].
Proof. destruct l; [discriminate | discriminate]. Qed.

Lemma compatible_parts (w a : list Z * list Z) :
  compatible w a = true ->
  fst w <> [] /\ fst a <> [] /\ snd a <> []
  /\ forallb isWordChar (snd a) = true
  /\ (forall t, (0 < t < length (fst w))%nat ->
                prefixCI (snd a) (skipn t (fst w)) = false)
  /\ (prefixCI (snd a) (fst w) = true ->
      snd a = snd w /\ length (snd a) = length (fst w)).
Proof.
  unfold compatible. rewrite !andb_true_iff.
  intros [[[[[H1 H2] H3] H4] H5] H6].
  repeat split; try (now apply nonEmpty_true); try assumption.
  - intros t Ht. unfold noInner in H5. rewrite forallb_forall in H5.
    apply negb_true_iff. apply H5. apply in_seq. lia.
  - unfold atFront in H6. rewrite H in H6. simpl in H6.
    apply andb_true_iff in H6. destruct H6 as [H6 _].
    destruct (list_eq_dec Z.eq_dec (snd a) (snd w)); [assumption | discriminate].
  - unfold atFront in H6. rewrite H in H6. simpl in H6.
    apply andb_true_iff in H6. destruct H6 as [_ H6].
    now apply Nat.eqb_eq.
Qed.

Lemma compatible_preserved (w a : list Z * list Z) (s : list Z) :
  compatible w a = true ->
  stable (fst w) (snd w) s ->
  stable (fst w) (snd w) (replaceAll (fst a) (snd a) s).
Proof.
  intros Hc Hst. apply compatible_parts in Hc.
  destruct Hc as [H1 [H2 [H3 [H4 [H5 H6]]]]].
  unfold stable, replaceAll.
  apply (preserved_from (fst w) (snd w) (fst a) (snd a) H1 H2 H3 H4 H5 H6
           (length s) s (le_n _) None None).
  - now left.
  - intros l2 r2 Hs _ Hm. exact (Hst l2 r2 Hs Hm).
Qed.

Lemma compatible_self (a : list Z * list Z) (s : list Z) :
  compatible a a = true ->
  stable (fst a) (snd a) (replaceAll (fst a) (snd a) s).
Proof.
  intros Hc. apply compatible_parts in Hc.
  destruct Hc as [H1 [H2 [H3 [H4 [H5 H6]]]]].
  unfold stable, replaceAll.
  apply (preserved_from (fst a) (snd a) (fst a) (snd a) H1 H2 H3 H4 H5 H6
           (length s) s (le_n _) None None).
  - now left.
  - intros l2 r2 _ Hmiss Hm. congruence.
Qed.

Import VoiceInterface.

Lemma corrections_stable :
  forall (todo done : list (list Z * list Z)) (s : list Z),
    (forall w a, In w (done ++ todo) -> In a todo -> compatible w a = true) ->
    Forall (fun w => stable (fst w) (snd w) s) done ->
    Forall (fun w => stable (fst w) (snd w) (applyCorrections todo s))
           (done ++ todo).
Proof.
  induction todo as [|a todo IH]; intros done s Hc Hdone.
  - now rewrite app_nil_r.
  - change (applyCorrections (a :: todo) s)
      with (applyCorrections todo (replaceAll (fst a) (snd a) s)).
    replace (done ++ a :: todo) with ((done ++ [a]) ++ todo)
      by (now rewrite <- app_assoc).
    apply IH.
    + intros w b Hw Hb. apply Hc.
      * rewrite <- app_assoc in Hw. exact Hw.
      * now right.
    + apply Forall_app. split.
      * rewrite Forall_forall in Hdone |- *. intros w Hw.
        apply compatible_preserved; [|now apply Hdone].
        apply Hc; [apply in_or_app; now left | now left].
      * constructor; [|constructor]. apply compatible_self.
        apply Hc; [apply in_or_app; right; now left | now left].
Qed.

Lemma corrections_fixed :
  forall (rules : list (list Z * list Z)) (s : list Z),
    Forall (fun w => fst w <> [] /\ stable (fst w) (snd w) s) rules ->
    applyCorrections rules s = s.
Proof.
  induction rules as [|a rules IH]; intros s H; [reflexivity|].
  inversion H as [|? ? [Ha1 Ha2] Hrest]; subst.
  change (applyCorrections (a :: rules) s)
    with (applyCorrections rules (replaceAll (fst a) (snd a) s)).
  rewrite (stable_fixed (fst a) (snd a) s Ha1 Ha2). now apply IH.
Qed.

(** A table that passes [tableOK] is idempotent as a whole. *)
Lemma tableOK_idempotent (table : list (list Z * list Z)) (s : list Z) :
  tableOK table = true ->
  applyCorrections table (applyCorrections table s) = applyCorrections table s.
Proof.
  intros Hok. unfold tableOK in Hok. rewrite forallb_forall in Hok.
  assert (Hc : forall w a, In w table -> In a table -> compatible w a = true).
  { intros w a Hw Ha. specialize (Hok w Hw). rewrite forallb_forall in Hok.
    now apply Hok. }
  apply corrections_fixed.
  pose proof (corrections_stable table [] s) as Hst. simpl in Hst.
  specialize (Hst Hc (Forall_nil _)).
  rewrite Forall_forall in Hst |- *. intros w Hw. split.
  - specialize (Hc w w Hw Hw). apply compatible_parts in Hc. tauto.
  - now apply Hst.
Qed.

End RegexFacts.

(* ================================================================== *)
(** ** Facts about [detectLanguage] *)

Module LanguageFacts.

Import Js Regex Rules RegexFacts VoiceInterface Reading.

Lemma testFrom_spec (pat : list Z) :
  forall (s : list Z) (prev : option Z),
    testFrom pat prev s = true <->
    exists l r, s = l ++ r /\ matchHere pat (lastOr prev l) r = true.
Proof.
  induction s as [|c s IH]; intros prev; cbn [testFrom].
  - rewrite orb_false_r. split.
    + intros H. now exists [], [].
    + intros [l [r [Hs H]]]. symmetry in Hs. apply app_eq_nil in Hs.
      destruct Hs; subst. exact H.
  - rewrite orb_true_iff, IH. split.
    + intros [H | [l [r [Hs H]]]].
      * now exists [], (c :: s).
      * exists (c :: l), r. split; [now rewrite Hs | exact H].
    + intros [[|a l] [r [Hs H]]].
      * left. simpl in Hs. now subst r.
      * right. injection Hs as Ha Hs. subst a. now exists l, r.
Qed.

Lemma isLowerLetter_word (c : Z) : isLowerLetter c = true -> isWordChar c = true.
Proof.
  unfold isLowerLetter, isWordChar. intros H. rewrite H.
  now rewrite orb_true_r.
Qed.

Lemma charMatches_refl (c : Z) : charMatches c c = true.
Proof. unfold charMatches. apply Z.eqb_refl. Qed.

Lemma prefixCI_refl (word post : list Z) : prefixCI word (word ++ post) = true.
Proof.
  induction word as [|p word IH]; [reflexivity|]. simpl.
  now rewrite charMatches_refl.
Qed.

(** Against text without upper-case ASCII, a lower-case letter of the
    pattern matches only itself. *)
Lemma charMatches_lower (p c : Z) :
  isLowerLetter p = true -> isUpperLetter c = false ->
  charMatches p c = true -> c = p.
Proof.
  unfold isLowerLetter, isUpperLetter, charMatches, canonicalize.
  intros Hp Hc. rewrite Hp.
  destruct ((97 <=? c) && (c <=? 122)) eqn:E1;
    [|destruct ((224 <=? c) && (c <=? 254) && negb (c =? 247)) eqn:E2];
    intros H; apply Z.eqb_eq in H;
    repeat match goal with
           | H : _ && _ = true |- _ => apply andb_true_iff in H; destruct H
           | H : _ && _ = false |- _ => apply andb_false_iff in H
           | H : (_ <=? _) = true |- _ => apply Z.leb_le in H
           | H : (_ <=? _) = false |- _ => apply Z.leb_gt in H
           end; lia.
Qed.

Lemma prefixCI_lower (word s : list Z) :
  forallb isLowerLetter word = true ->
  forallb (fun c => negb (isUpperLetter c)) s = true ->
  prefixCI word s = true -> firstn (length word) s = word.
Proof.
  revert s. induction word as [|p word IH]; intros [|c s] Hw Hs H;
    simpl in *; try reflexivity; try discriminate.
  apply andb_true_iff in Hw, Hs, H.
  destruct Hw as [Hp Hw], Hs as [Hc Hs], H as [H1 H2].
  apply negb_true_iff in Hc.
  rewrite (charMatches_lower p c Hp Hc H1). f_equal. now apply IH.
Qed.

Lemma toLowerCaseUnit_noUpper (c : Z) :
  forallb (fun u => negb (isUpperLetter u)) (toLowerCaseUnit c) = true.
Proof.
  unfold toLowerCaseUnit, isUpperLetter.
  destruct ((65 <=? c) && (c <=? 90)) eqn:E1.
  - apply andb_true_iff in E1. destruct E1 as [H1 H2].
    apply Z.leb_le in H1, H2. simpl. rewrite andb_true_r.
    apply negb_true_iff, andb_false_iff. right. apply Z.leb_gt. lia.
  - destruct (c =? 8490); [reflexivity|]. destruct (c =? 304); [reflexivity|].
    simpl. now rewrite E1.
Qed.

Lemma toLowerCase_noUpper (text : jsString) :
  forallb (fun u => negb (isUpperLetter u)) (toLowerCase text) = true.
Proof.
  induction text as [|c text IH]; [reflexivity|].
  unfold toLowerCase in *. simpl. rewrite forallb_app, IH.
  now rewrite toLowerCaseUnit_noUpper.
Qed.

Lemma lastOr_word (word : list Z) (d : option Z) :
  nonEmpty word = true -> forallb isLowerLetter word = true ->
  isWordCharAt (lastOr d word) = true.
Proof.
  destruct word as [|p word]; [discriminate|]. intros _ Hw.
  rewrite lastOr_cons. destruct (lastOr_some_in p word) as [x [Hx Hin]].
  rewrite Hx. simpl. apply isLowerLetter_word.
  rewrite forallb_forall in Hw. now apply Hw.
Qed.

(** [test] on lower-cased text finds exactly the whole-word
    occurrences. *)
Lemma test_wholeWord (word text : jsString) :
  plainWord word = true ->
  forallb (fun u => negb (isUpperLetter u)) text = true ->
  test word text = true <-> wholeWordIn word text.
Proof.
  intros Hplain Hlow. apply andb_true_iff in Hplain.
  destruct Hplain as [Hne Hw]. unfold test. rewrite testFrom_spec.
  assert (Hhd : forall post, isWordCharAt (hd_error (word ++ post)) = true).
  { intros post. destruct word as [|p word]; [discriminate|]. simpl.
    simpl in Hw. apply andb_true_iff in Hw. now apply isLowerLetter_word. }
  split.
  - intros [l [r [Hs Hm]]]. apply matchHere_parts in Hm.
    destruct Hm as [Hb0 [Hp Hb1]].
    assert (Hr : firstn (length word) r = word).
    { apply prefixCI_lower; try assumption.
      rewrite Hs, forallb_app in Hlow. apply andb_true_iff in Hlow. tauto. }
    exists l, (skipn (length word) r). split; [|split].
    + rewrite Hs. f_equal.
      transitivity (firstn (length word) r ++ skipn (length word) r);
        [symmetry; apply firstn_skipn | now rewrite Hr].
    + rewrite <- (firstn_skipn (length word) r), Hr in Hb0.
      unfold wordBoundary in Hb0. rewrite Hhd in Hb0.
      now destruct (isWordCharAt (lastOr None l)).
    + rewrite Hr in Hb1. unfold wordBoundary in Hb1.
      rewrite lastOr_word in Hb1 by assumption.
      now destruct (isWordCharAt (hd_error (skipn (length word) r))).
  - intros [pre [post [Hs [H1 H2]]]]. exists pre, (word ++ post).
    split; [exact Hs|]. apply matchHere_parts. split; [|split].
    + unfold wordBoundary. now rewrite H1, Hhd.
    + apply prefixCI_refl.
    + rewrite firstn_app_short, firstn_all by lia.
      rewrite skipn_app_short, skipn_all by lia. simpl.
      unfold wordBoundary. rewrite lastOr_word by assumption. now rewrite H2.
Qed.

Lemma hindiRegexTest_spec (text : jsString) :
  hindiRegexTest text = true <-> hasDevanagari text.
Proof.
  unfold hindiRegexTest, hasDevanagari, isDevanagari. rewrite existsb_exists.
  split; intros [c [Hin H]]; exists c; split; try assumption.
  - apply andb_true_iff in H. destruct H as [H1 H2].
    apply Z.leb_le in H1, H2. lia.
  - apply andb_true_iff. split; apply Z.leb_le; lia.
Qed.

Lemma filter_count (f : jsString -> bool) (l : list jsString) :
  (1 <=? length (filter f l))%nat = true <-> exists w, In w l /\ f w = true.
Proof.
  rewrite Nat.leb_le. split.
  - intros H. destruct (filter f l) as [|w ws] eqn:E; [simpl in H; lia|].
    exists w. apply filter_In. rewrite E. now left.
  - intros [w Hw]. apply filter_In in Hw.
    destruct (filter f l); [contradiction | simpl; lia].
Qed.

Lemma strongHindiWords_plain :
  forall word, In word strongHindiWords -> plainWord word = true.
Proof.
  apply Forall_forall. unfold strongHindiWords.
  repeat constructor.
Qed.

Lemma hindiWordCount_spec (text : jsString) :
  (1 <=? hindiWordCount text)%nat = true <->
  exists word, In word strongHindiWords /\ wholeWordCI word text.
Proof.
  unfold hindiWordCount. cbv zeta. rewrite filter_count.
  split; intros [w [Hin H]]; exists w; (split; [exact Hin|]).
  - apply test_wholeWord in H; auto using strongHindiWords_plain,
      toLowerCase_noUpper.
  - apply test_wholeWord; auto using strongHindiWords_plain,
      toLowerCase_noUpper.
Qed.

Lemma isSeparator_lower (c : Z) :
  isSeparator c = true ->
  toLowerCaseUnit c = [c] /\ isWordChar c = false.
Proof.
  unfold isSeparator, toLowerCaseUnit. intros H.
  apply andb_true_iff in H. destruct H as [H H3].
  apply andb_true_iff in H. destruct H as [H1 H2].
  apply negb_true_iff in H1, H2, H3. rewrite H2, H3. split; [|exact H1].
  destruct ((65 <=? c) && (c <=? 90)) eqn:E; [|reflexivity].
  unfold isWordChar in H1. rewrite E in H1. simpl in H1.
  now rewrite orb_true_r in H1.
Qed.

Lemma toLowerCase_app (a b : jsString) :
  toLowerCase (a ++ b) = toLowerCase a ++ toLowerCase b.
Proof. unfold toLowerCase. apply flat_map_app. Qed.

Lemma lastOr_none_inv (l : list Z) :
  l = [] \/ exists l' c, l = l' ++ [c] /\ lastOr None l = Some c.
Proof.
  destruct l as [|a l]; [now left|]. right.
  destruct (@exists_last Z (a :: l)) as [l' [c Hl]]; [discriminate|].
  exists l', c. split; [exact Hl|]. rewrite Hl, lastOr_app. reflexivity.
Qed.

Lemma standalone_wholeWordCI (word text : jsString) :
  standaloneWord word text -> wholeWordCI word text.
Proof.
  intros [pre [m [post [Hs [Hm [H1 H2]]]]]].
  exists (toLowerCase pre), (toLowerCase post). split; [|split].
  - rewrite Hs, !toLowerCase_app. now rewrite Hm.
  - destruct (lastOr_none_inv pre) as [-> | [l' [c [-> Hc]]]]; [reflexivity|].
    destruct (isSeparator_lower c (H1 c Hc)) as [Hl Hn].
    rewrite toLowerCase_app, lastOr_app. unfold toLowerCase at 2. simpl.
    rewrite app_nil_r, Hl. exact Hn.
  - destruct post as [|c post]; [reflexivity|].
    destruct (isSeparator_lower c (H2 c eq_refl)) as [Hl Hn].
    unfold toLowerCase. simpl. rewrite Hl. exact Hn.
Qed.

End LanguageFacts.

(* ================================================================== *)
(** ** Facts about the component handlers *)

Module HandlerFacts.

Import Js VoiceInterface.

Lemma startsWith_spec (needle hay : jsString) :
  startsWith needle hay = true <-> exists post, hay = needle ++ post.
Proof.
  revert hay. induction needle as [|n needle IH]; intros hay; simpl.
  - split; [intros _; now exists hay | reflexivity].
  - destruct hay as [|h hay].
    + split; [discriminate | intros [post H]; discriminate].
    + rewrite andb_true_iff, Z.eqb_eq, IH. split.
      * intros [-> [post ->]]. now exists post.
      * intros [post H]. injection H as -> ->. split; [reflexivity|].
        now exists post.
Qed.

Lemma includes_spec (needle hay : jsString) :
  includes needle hay = true <-> exists pre post, hay = pre ++ needle ++ post.
Proof.
  induction hay as [|h hay IH]; cbn [includes].
  - rewrite orb_false_r, startsWith_spec. split.
    + intros [post H]. now exists [], post.
    + intros [pre [post H]]. destruct pre; [now exists post | discriminate].
  - rewrite orb_true_iff, startsWith_spec, IH. split.
    + intros [[post H] | [pre [post H]]].
      * now exists [], post.
      * exists (h :: pre), post. now rewrite H.
    + intros [[|a pre] [post H]].
      * left. now exists post.
      * right. injection H as -> ->. now exists pre, post.
Qed.

Lemma endsWith_spec (needle hay : jsString) :
  endsWith needle hay = true <-> exists pre, hay = pre ++ needle.
Proof.
  unfold endsWith. rewrite startsWith_spec. split.
  - intros [post H]. exists (rev post).
    rewrite <- (rev_involutive hay), H, rev_app_distr.
    now rewrite rev_involutive.
  - intros [pre ->]. exists (rev pre). apply rev_app_distr.
Qed.

Lemma needsVoiceInput_spec (responseMessage : jsString) :
  needsVoiceInput responseMessage = true <->
  (exists phrase, In phrase followUpPhrases
                  /\ exists pre post,
                       toLowerCase responseMessage = pre ++ phrase ++ post)
  \/ (exists pre, toLowerCase responseMessage = pre ++ codeUnits "?").
Proof.
  unfold needsVoiceInput. cbv zeta.
  rewrite orb_true_iff, existsb_exists, endsWith_spec.
  split; (intros [[phrase [Hin H]] | H]; [left | now right]);
    exists phrase; (split; [exact Hin|]); now apply includes_spec.
Qed.

Lemma setRecorder_length (rs : list recorderState) (i : nat)
    (v : recorderState) : length (setRecorder rs i v) = length rs.
Proof.
  revert i. induction rs as [|r rs IH]; intros [|i]; simpl; auto.
Qed.

Lemma setRecorder_active (rs : list recorderState) (i : nat) :
  (length (filter isRecording (setRecorder rs i Inactive))
   <= length (filter isRecording rs))%nat.
Proof.
  revert i. induction rs as [|r rs IH]; intros [|i]; simpl; auto.
  - destruct (isRecording r); simpl; lia.
  - specialize (IH i). destruct (isRecording r); simpl; lia.
Qed.

Lemma setRecorder_stops (rs : list recorderState) (i : nat) :
  isRecording (nth i (setRecorder rs i Inactive) Inactive) = false.
Proof.
  revert i. induction rs as [|r rs IH]; intros [|i]; simpl; auto.
Qed.

Lemma setRecorder_others (rs : list recorderState) (i j : nat)
    (v : recorderState) :
  j <> i -> nth j (setRecorder rs i v) Inactive = nth j rs Inactive.
Proof.
  revert i j. induction rs as [|r rs IH]; intros [|i] [|j] H; simpl; auto.
  congruence.
Qed.

Lemma setRecorder_idle (rs : list recorderState) (i : nat) :
  isRecording (nth i rs Inactive) = false -> setRecorder rs i Inactive = rs.
Proof.
  revert i. induction rs as [|r rs IH]; intros [|i] H; simpl in *; auto.
  - now destruct r.
  - now rewrite IH.
Qed.

(** What [toggleListening] leaves of the recorders when it stops. *)
Lemma toggleListening_stop (r : Render) (media : userMedia) (s : State) :
  r_isListening r = true ->
  recorders (toggleListening r media s)
  = match mediaRecorderRef s with
    | Some i => setRecorder (recorders s) i Inactive
    | None => recorders s
    end
  /\ commandHistory (toggleListening r media s) = commandHistory s
  /\ isListening (toggleListening r media s) = false.
Proof.
  intros H. unfold toggleListening. rewrite H.
  destruct (mediaRecorderRef s) as [i|]; [|now repeat split].
  destruct (isRecording (nth i (recorders s) Inactive)) eqn:E;
    simpl; repeat split.
  now rewrite setRecorder_idle.
Qed.

End HandlerFacts.

(* ================================================================== *)
(** ** Facts about the modals *)

Module AppFacts.

Import Js Api App.




End AppFacts.

(* ================================================================== *)
(** ** The claims *)

(** C5. The transcript correction of [transcribeAudio] (the ordered
    table of case-insensitive whole-word replacements) is idempotent:
    correcting a corrected text changes nothing. *)
Theorem correctTranscript_idempotent :
  forall text : Js.jsString,
    VoiceInterface.correctTranscript (VoiceInterface.correctTranscript text)
    = VoiceInterface.correctTranscript text.
Proof.
  intros text. unfold VoiceInterface.correctTranscript.
  apply RegexFacts.tableOK_idempotent. vm_compute. reflexivity.
Qed.

(** C4. The fallback language classifier [detectLanguage]: a text with a
    code unit of the Devanagari block is ['hi']; otherwise a text with a
    case-insensitive whole-word match of a word of the list is ['hi'];
    otherwise the text is ['en'].  "Send ten rupees to Neeraj" is
    ['en'], and a text with "kya" or "hai" as a standalone word is
    ['hi']. *)
Theorem detectLanguage_classifies :
  (forall text, Reading.hasDevanagari text ->
                VoiceInterface.detectLanguage text = "hi"%string)
  /\ (forall text,
        ~ Reading.hasDevanagari text ->
        (exists word, In word VoiceInterface.strongHindiWords
                      /\ Reading.wholeWordCI word text) ->
        VoiceInterface.detectLanguage text = "hi"%string)
  /\ (forall text,
        ~ Reading.hasDevanagari text ->
        ~ (exists word, In word VoiceInterface.strongHindiWords
                        /\ Reading.wholeWordCI word text) ->
        VoiceInterface.detectLanguage text = "en"%string)
  /\ VoiceInterface.detectLanguage (Js.codeUnits "Send ten rupees to Neeraj")
     = "en"%string
  /\ (forall text,
        Reading.standaloneWord (Js.codeUnits "kya") text
        \/ Reading.standaloneWord (Js.codeUnits "hai") text ->
        VoiceInterface.detectLanguage text = "hi"%string).
Proof.
  assert (Hhi : forall text,
             (exists word, In word VoiceInterface.strongHindiWords
                           /\ Reading.wholeWordCI word text) ->
             VoiceInterface.detectLanguage text = "hi"%string).
  { intros text H. apply LanguageFacts.hindiWordCount_spec in H.
    unfold VoiceInterface.detectLanguage. rewrite H.
    now destruct (VoiceInterface.hindiRegexTest text). }
  split; [|split; [|split; [|split]]].
  - intros text H. apply LanguageFacts.hindiRegexTest_spec in H.
    unfold VoiceInterface.detectLanguage. now rewrite H.
  - intros text _ H. now apply Hhi.
  - intros text Hd Hw. unfold VoiceInterface.detectLanguage.
    destruct (VoiceInterface.hindiRegexTest text) eqn:E1.
    + exfalso. apply Hd. now apply LanguageFacts.hindiRegexTest_spec.
    + destruct (1 <=? VoiceInterface.hindiWordCount text)%nat eqn:E2;
        [|reflexivity].
      exfalso. apply Hw. now apply LanguageFacts.hindiWordCount_spec.
  - vm_compute. reflexivity.
  - intros text [H | H]; apply Hhi.
    + exists (Js.codeUnits "kya"). split.
      * vm_compute. tauto.
      * now apply LanguageFacts.standalone_wholeWordCI.
    + exists (Js.codeUnits "hai"). split.
      * vm_compute. tauto.
      * now apply LanguageFacts.standalone_wholeWordCI.
Qed.

(** The classifier on four transcripts: Devanagari script, a Hinglish
    sentence, an English sentence, and "Kya" between a bracket and a
    question mark. *)
Lemma detectLanguage_classifies_witness :
  VoiceInterface.detectLanguage [2346; 2376; 2360; 2375] = "hi"%string
  /\ VoiceInterface.detectLanguage (Js.codeUnits "Anuj ko paise BHEJO")
     = "hi"%string
  /\ VoiceInterface.detectLanguage (Js.codeUnits "Show transactions")
     = "en"%string
  /\ VoiceInterface.detectLanguage (Js.codeUnits "(Kya?")
     = "hi"%string.
Proof.
  destruct detectLanguage_classifies as [H1 [H2 [H3 [_ H5]]]].
  assert (Hnd : forall s, VoiceInterface.hindiRegexTest s = false ->
                          ~ Reading.hasDevanagari s).
  { intros s E H. apply LanguageFacts.hindiRegexTest_spec in H. congruence. }
  split; [|split; [|split]].
  - apply H1. exists 2346. split; [now left | lia].
  - apply H2; [now apply Hnd|].
    exists (Js.codeUnits "bhejo"). split; [vm_compute; tauto|].
    exists (Js.codeUnits "anuj ko paise "), []. split; [reflexivity|].
    split; reflexivity.
  - apply H3; [now apply Hnd|].
    intros H. apply LanguageFacts.hindiWordCount_spec in H.
    vm_compute in H. discriminate.
  - apply H5. left.
    exists (Js.codeUnits "("), (Js.codeUnits "Kya"), (Js.codeUnits "?").
    split; [reflexivity|]. split; [reflexivity|].
    split; intros c Hc; injection Hc as <-; reflexivity.
Defined.




(** C3. The pending payment is one slot ([useState(null)]): a handler
    leaves a payment in it only if it was there before or the handler
    is [handleVoiceResponse] on a response that needs the PIN; such a
    response overwrites what the slot held; the PIN modal's [onSuccess]
    (called on a successful payment) and [onClose] empty it. *)
Theorem pendingPayment_single_slot :
  (forall s e p,
      App.pendingPayment (App.step s e) = Some p ->
      App.pendingPayment s = Some p
      \/ exists response,
           e = App.VoiceResponse response
           /\ App.needsPin response = true
           /\ p = App.paymentOf response)
  /\ (forall s response,
        App.needsPin response = true ->
        App.pendingPayment (App.step s (App.VoiceResponse response))
        = Some (App.paymentOf response))
  /\ (forall response st,
        Js.truthy (Api.success response) = true ->
        snd (PinModal.handleSubmit_resume (Api.Returned response) st)
        = [PinModal.OnSuccess (Api.paymentData_ response)])
  /\ (forall s d, App.pendingPayment (App.step s (App.PinSuccess d)) = None)
  /\ (forall s, App.pendingPayment (App.step s App.PinClose) = None).
Proof.
  split; [|split; [|split; [|split]]].
  - intros s e p H.
    destruct e as [| |response|d| |outcome| | |]; simpl in H;
      try (now left); try discriminate.
    + unfold App.handleVoiceResponse in H.
      destruct (App.needsPin response) eqn:E.
      * right. exists response. simpl in H. injection H as <-. auto.
      * left. destruct (_ || _); exact H.
    + unfold App.onPinSuccess in H. destruct d as [d|];
        [destruct (Js.truthy (Api.nudge d))|]; discriminate.
    + unfold App.handlePaymentConfirm in H. destruct outcome as [r|];
        [destruct (Js.truthy (Api.success r))|]; try discriminate; now left.
  - intros s response H. simpl. unfold App.handleVoiceResponse.
    now rewrite H.
  - intros response st H. simpl. now rewrite H.
  - intros s d. simpl. unfold App.onPinSuccess.
    destruct d as [d|]; [destruct (Js.truthy (Api.nudge d))|]; reflexivity.
  - reflexivity.
Qed.

(** A second payment command arrives while the first awaits its PIN:
    the slot holds the second one only. *)
Lemma pendingPayment_single_slot_witness :
  let pay name n :=
    {| Api.intent := "payment"; Api.message := [];
       Api.data := Some {| Api.data_recipient := Js.JStr name;
                           Api.data_amount := Js.JNum n;
                           Api.requires_pin := Js.JBool true |} |} in
  App.pendingPayment
    (App.step (App.step App.initialState
                 (App.VoiceResponse (pay "Rahul"%string 500)))
       (App.VoiceResponse (pay "Anuj"%string 200)))
  = Some {| Api.recipient := Js.JStr "Anuj"; Api.amount := Js.JNum 200 |}.
Proof.
  intros pay.
  exact (proj1 (proj2 pendingPayment_single_slot)
           (App.step App.initialState
              (App.VoiceResponse (pay "Rahul"%string 500)))
           (pay "Anuj"%string 200) eq_refl).
Defined.

(** What [handleSubmit] does to the state on a payment that fails (a
    response whose [success] is falsy, or a transport error): one call
    of [makePayment] and no second one, the four digits cleared, an
    error shown, loading ended, and one call of [focus()] on the first
    input. *)
Theorem failed_payment_clears_pin :
  forall (props : PinModal.Props) (argument : option string)
         (outcome : Api.paymentOutcome) (s : PinModal.State),
    String.length (PinModal.submittedPin argument s) = 4%nat ->
    PinModal.paymentFailed outcome = true ->
    exists message,
      message <> ""%string
      /\ PinModal.handleSubmit props argument outcome s
         = ({| PinModal.pin := [""; ""; ""; ""]%string;
               PinModal.error := message;
               PinModal.loading := false |},
            [PinModal.MakePayment
               (Api.recipient (PinModal.pendingPayment props))
               (Api.amount (PinModal.pendingPayment props))
               (PinModal.submittedPin argument s) (PinModal.userId props);
             PinModal.Focus 0]).
Proof.
  intros props argument outcome s Hlen Hfail.
  unfold PinModal.handleSubmit, PinModal.handleSubmit_begin. cbv zeta.
  rewrite Hlen. cbn [Nat.eqb negb].
  destruct outcome as [response|]; cbn [PinModal.handleSubmit_resume].
  - simpl in Hfail. apply negb_true_iff in Hfail. rewrite Hfail.
    exists (PinModal.failureMessage (Api.paymentMessage response)).
    split; [|reflexivity].
    unfold PinModal.failureMessage.
    destruct (Api.paymentMessage response) as [m|]; [|discriminate].
    destruct (String.eqb m "") eqn:E; [discriminate|].
    now apply String.eqb_neq.
  - exists "Payment failed. Please try again."%string.
    split; [discriminate | reflexivity].
Qed.

(** PIN 9999 is refused by the ledger. *)
Lemma failed_payment_clears_pin_witness :
  let props :=
    {| PinModal.pendingPayment :=
         {| Api.recipient := Js.JStr "Rahul"; Api.amount := Js.JNum 500 |};
       PinModal.userId := Js.JNum 1 |} in
  let outcome :=
    Api.Returned {| Api.success := Js.JBool false;
                    Api.paymentMessage := Some "Invalid PIN"%string;
                    Api.paymentData_ := None |} in
  exists message,
    message <> ""%string
    /\ PinModal.handleSubmit props (Some "9999"%string) outcome
         {| PinModal.pin := ["9"; "9"; "9"; "9"]%string;
            PinModal.error := ""%string; PinModal.loading := false |}
       = ({| PinModal.pin := [""; ""; ""; ""]%string;
             PinModal.error := message;
             PinModal.loading := false |},
          [PinModal.MakePayment (Js.JStr "Rahul") (Js.JNum 500) "9999"
                                (Js.JNum 1);
           PinModal.Focus 0]).
Proof.
  intros props outcome.
  exact (failed_payment_clears_pin props (Some "9999"%string) outcome _
           eq_refl eq_refl).
Defined.

(** The call of [focus()] after a failed payment finds the inputs
    disabled: [setLoading(false)] comes in the [finally] block, after
    the call.  Focus stays where it was. *)
Lemma failed_payment_focus_unmoved :
  forall (props : PinModal.Props) (argument : option string)
         (outcome : Api.paymentOutcome) (m : PinModal.State * PinFocus.Dom),
    String.length (PinModal.submittedPin argument (fst m)) = 4%nat ->
    PinModal.paymentFailed outcome = true ->
    PinFocus.disabled (snd (PinFocus.handleSubmit_begin props argument m))
    = true
    /\ snd (PinModal.handleSubmit_resume outcome
              (fst (PinFocus.handleSubmit_begin props argument m)))
       = [PinModal.Focus 0]
    /\ PinFocus.activeElement
         (snd (PinFocus.handleSubmit_resume outcome
                 (PinFocus.handleSubmit_begin props argument m)))
       = PinFocus.activeElement (snd m)
    /\ PinModal.pin
         (fst (PinFocus.handleSubmit_resume outcome
                 (PinFocus.handleSubmit_begin props argument m)))
       = [""; ""; ""; ""]%string.
Proof.
  intros props argument outcome [s dom] Hlen Hfail. simpl in Hlen.
  unfold PinFocus.handleSubmit_begin, PinFocus.handleSubmit_resume,
    PinFocus.stretch, PinModal.handleSubmit_begin. cbv zeta.
  cbn [fst snd]. rewrite Hlen. cbn [Nat.eqb negb fst snd].
  destruct outcome as [response|]; cbn [PinModal.handleSubmit_resume].
  - simpl in Hfail. apply negb_true_iff in Hfail. rewrite Hfail.
    repeat split.
  - repeat split.
Qed.

(** C2.  The modal is mounted, 9999 is typed and the ledger refuses it:
    the four digits are cleared and [focus()] is called on the first
    input, but at that moment every input is still disabled (the modal
    is loading), so the call does nothing: focus is on the fourth input
    as before, not on the first. *)
Lemma failed_payment_focus_stays :
  let props :=
    {| PinModal.pendingPayment :=
         {| Api.recipient := Js.JStr "Rahul"; Api.amount := Js.JNum 500 |};
       PinModal.userId := Js.JNum 1 |} in
  let outcome :=
    Api.Returned {| Api.success := Js.JBool false;
                    Api.paymentMessage := Some "Invalid PIN"%string;
                    Api.paymentData_ := None |} in
  let submitted :=
    PinFocus.typeDigits props 0 ["9"; "9"; "9"; "9"]%string PinFocus.mounted in
  let failed := PinFocus.handleSubmit_resume outcome submitted in
  PinFocus.activeElement (snd PinFocus.mounted) = Some 0%nat
  /\ PinModal.pin (fst submitted) = ["9"; "9"; "9"; "9"]%string
  /\ PinModal.loading (fst submitted) = true
  /\ PinFocus.disabled (snd submitted) = true
  /\ PinFocus.activeElement (snd submitted) = Some 3%nat
  /\ snd (PinModal.handleSubmit_resume outcome (fst submitted))
     = [PinModal.Focus 0]
  /\ PinModal.pin (fst failed) = [""; ""; ""; ""]%string
  /\ PinModal.loading (fst failed) = false
  /\ PinFocus.disabled (snd failed) = false
  /\ PinFocus.activeElement (snd failed) = Some 3%nat.
Proof. repeat split. Qed.

(** C6. The PIN entry: a value that is not one digit is ignored; a
    digit in one of the first three fields is stored and [focus()] is
    called on the next field; Backspace in an empty field calls
    [focus()] on the field before; four digits typed in order end in one
    call of [makePayment] with the four digits joined, with no other
    action; a submission whose PIN is not four characters long sets the
    error and calls nothing. *)
Theorem pin_entry_collects_four_digits :
  forall props : PinModal.Props,
    (forall index value s,
        (1 < String.length value)%nat
        \/ (value <> ""%string /\ PinModal.digitsOnly value = false) ->
        PinModal.handleChange props index value s = (s, []))
    /\ (forall index a s,
          (index < 3)%nat -> PinModal.isDigit a = true ->
          PinModal.handleChange props index (String a "") s
          = ({| PinModal.pin := PinModal.setAt (PinModal.pin s) index
                                               (String a "");
                PinModal.error := ""%string;
                PinModal.loading := PinModal.loading s |},
             [PinModal.Focus (index + 1)]))
    /\ (forall index s,
          (0 < index)%nat ->
          nth index (PinModal.pin s) ""%string = ""%string ->
          PinModal.handleKeyDown index "Backspace" s
          = [PinModal.Focus (index - 1)])
    /\ (forall a1 a2 a3 a4,
          PinModal.isDigit a1 = true -> PinModal.isDigit a2 = true ->
          PinModal.isDigit a3 = true -> PinModal.isDigit a4 = true ->
          PinModal.typeDigits props 0
            [String a1 ""; String a2 ""; String a3 ""; String a4 ""]
            PinModal.initialState
          = ({| PinModal.pin :=
                  [String a1 ""; String a2 ""; String a3 ""; String a4 ""];
                PinModal.error := ""%string;
                PinModal.loading := true |},
             [PinModal.Focus 1; PinModal.Focus 2; PinModal.Focus 3;
              PinModal.MakePayment
                (Api.recipient (PinModal.pendingPayment props))
                (Api.amount (PinModal.pendingPayment props))
                (String a1 (String a2 (String a3 (String a4 ""))))
                (PinModal.userId props)]))
    /\ (forall argument s,
          String.length (PinModal.submittedPin argument s) <> 4%nat ->
          PinModal.handleSubmit_begin props argument s
          = ({| PinModal.pin := PinModal.pin s;
                PinModal.error := "Please enter 4-digit PIN"%string;
                PinModal.loading := PinModal.loading s |},
             [])).
Proof.
  intros props.
  assert (Hone : forall a, PinModal.isDigit a = true ->
                   PinModal.digitsOnly (String a "") = true).
  { intros a Ha. unfold PinModal.digitsOnly. cbn [String.eqb negb andb
      PinModal.allDigits]. now rewrite Ha. }
  assert (Hchange : forall index a s,
             PinModal.isDigit a = true ->
             PinModal.handleChange props index (String a "") s
             = let newPin := PinModal.setAt (PinModal.pin s) index
                                            (String a "") in
               let s1 := {| PinModal.pin := newPin; PinModal.error := ""%string;
                            PinModal.loading := PinModal.loading s |} in
               let e1 := if (index <? 3)%nat
                         then [PinModal.Focus (index + 1)] else [] in
               if (index =? 3)%nat
               then (fst (PinModal.handleSubmit_begin props
                            (Some (PinModal.join newPin)) s1),
                     e1 ++ snd (PinModal.handleSubmit_begin props
                                  (Some (PinModal.join newPin)) s1))
               else (s1, e1)).
  { intros index a s Ha. unfold PinModal.handleChange.
    rewrite (Hone a Ha). cbn [String.length Nat.ltb Nat.leb String.eqb negb
      andb]. cbv zeta.
    destruct (index =? 3)%nat; [|reflexivity].
    now destruct (PinModal.handleSubmit_begin _ _ _). }
  split; [|split; [|split; [|split]]].
  - intros index value s [H | [H1 H2]]; unfold PinModal.handleChange.
    + apply Nat.ltb_lt in H. now rewrite H.
    + destruct (1 <? String.length value)%nat; [reflexivity|].
      apply String.eqb_neq in H1. now rewrite H1, H2.
  - intros index a s Hi Ha. rewrite (Hchange index a s Ha). cbv zeta.
    replace (index =? 3)%nat with false
      by (symmetry; apply Nat.eqb_neq; lia).
    replace (index <? 3)%nat with true by (symmetry; apply Nat.ltb_lt; lia).
    reflexivity.
  - intros index s Hi Hempty. unfold PinModal.handleKeyDown.
    rewrite Hempty. replace (0 <? index)%nat with true
      by (symmetry; apply Nat.ltb_lt; lia).
    reflexivity.
  - intros a1 a2 a3 a4 H1 H2 H3 H4. cbn [PinModal.typeDigits].
    rewrite (Hchange 0%nat a1 _ H1). cbv zeta.
    cbn [Nat.eqb Nat.ltb Nat.leb PinModal.initialState PinModal.pin
         PinModal.loading PinModal.setAt].
    rewrite (Hchange 1%nat a2 _ H2). cbv zeta.
    cbn [Nat.eqb Nat.ltb Nat.leb PinModal.pin PinModal.loading
         PinModal.setAt].
    rewrite (Hchange 2%nat a3 _ H3). cbv zeta.
    cbn [Nat.eqb Nat.ltb Nat.leb PinModal.pin PinModal.loading
         PinModal.setAt].
    rewrite (Hchange 3%nat a4 _ H4). cbv zeta.
    reflexivity.
  - intros argument s H. unfold PinModal.handleSubmit_begin. cbv zeta.
    apply Nat.eqb_neq in H. now rewrite H.
Qed.

(** The digits 1, 2, 3, 4 typed in order. *)
Lemma pin_entry_collects_four_digits_witness :
  let props :=
    {| PinModal.pendingPayment :=
         {| Api.recipient := Js.JStr "Rahul"; Api.amount := Js.JNum 500 |};
       PinModal.userId := Js.JNum 1 |} in
  PinModal.typeDigits props 0 ["1"; "2"; "3"; "4"]%string
    PinModal.initialState
  = ({| PinModal.pin := ["1"; "2"; "3"; "4"]%string;
        PinModal.error := ""%string;
        PinModal.loading := true |},
     [PinModal.Focus 1; PinModal.Focus 2; PinModal.Focus 3;
      PinModal.MakePayment (Js.JStr "Rahul") (Js.JNum 500) "1234"
                           (Js.JNum 1)]).
Proof.
  intros props.
  exact (proj1 (proj2 (proj2 (proj2 (pin_entry_collects_four_digits props))))
           "1"%char "2"%char "3"%char "4"%char
           eq_refl eq_refl eq_refl eq_refl).
Defined.

(** C7, as the specification states it, fails: the fallback has no
    timeout.  With no API key, in a browser whose utterance fires
    neither [end] nor [error], [speakWithBrowserTTS] is called and the
    utterance is queued, but the promise returned stays pending. *)
Lemma fallback_hangs_counterexample :
  let env :=
    {| ElevenLabs.ELEVENLABS_API_KEY := None;
       ElevenLabs.fetched := ElevenLabs.FetchRejected;
       ElevenLabs.audio := ElevenLabs.AudioSilent;
       ElevenLabs.speechSynthesisInWindow := true;
       ElevenLabs.uttered := ElevenLabs.UtteranceSilent |} in
  ElevenLabs.remoteFails env = true
  /\ ElevenLabs.effects
       (ElevenLabs.speakWithElevenLabs env (Js.codeUnits "Payment successful")
          "en")
     = [ElevenLabs.CallBrowserTTS (Js.codeUnits "Payment successful") "en";
        ElevenLabs.SynthSpeak (Js.codeUnits "Payment successful") "en-US"]
  /\ ElevenLabs.promise
       (ElevenLabs.speakWithElevenLabs env (Js.codeUnits "Payment successful")
          "en")
     = Js.Pending.
Proof. repeat split. Qed.

(** C7, amended.  When the remote text-to-speech call fails (no API
    key, a network error, a response that is not ok or cannot be
    read), [speakWithBrowserTTS] is called with the same text and
    language; where the browser has [speechSynthesis], the utterance is
    spoken with [lang] hi-IN for ['hi'] and en-US otherwise.  The
    promise returned is rejected at once where the browser has no
    [speechSynthesis]; otherwise it is fulfilled when the utterance
    fires [end], rejected when it fires [error], and pending as long as
    it fires neither. *)
Theorem remote_failure_falls_back :
  forall (env : ElevenLabs.Env) (text : Js.jsString) (language : string),
    ElevenLabs.remoteFails env = true ->
    In (ElevenLabs.CallBrowserTTS text language)
       (ElevenLabs.effects (ElevenLabs.speakWithElevenLabs env text language))
    /\ (ElevenLabs.speechSynthesisInWindow env = true ->
        In (ElevenLabs.SynthSpeak text
              (if String.eqb language "hi" then "hi-IN" else "en-US")%string)
           (ElevenLabs.effects
              (ElevenLabs.speakWithElevenLabs env text language)))
    /\ ElevenLabs.promise (ElevenLabs.speakWithElevenLabs env text language)
       = (if ElevenLabs.speechSynthesisInWindow env
          then match ElevenLabs.uttered env with
               | ElevenLabs.UtteranceEnded => Js.Resolved
               | ElevenLabs.UtteranceErrored => Js.Rejected
               | ElevenLabs.UtteranceSilent => Js.Pending
               end
          else Js.Rejected).
Proof.
  intros env text language Hfail.
  assert (Hb : In (ElevenLabs.CallBrowserTTS text language)
                  (ElevenLabs.effects
                     (ElevenLabs.speakWithBrowserTTS env text language))
               /\ (ElevenLabs.speechSynthesisInWindow env = true ->
                   In (ElevenLabs.SynthSpeak text
                         (if String.eqb language "hi" then "hi-IN"
                          else "en-US")%string)
                      (ElevenLabs.effects
                         (ElevenLabs.speakWithBrowserTTS env text language)))
               /\ ElevenLabs.promise
                    (ElevenLabs.speakWithBrowserTTS env text language)
                  = (if ElevenLabs.speechSynthesisInWindow env
                     then match ElevenLabs.uttered env with
                          | ElevenLabs.UtteranceEnded => Js.Resolved
                          | ElevenLabs.UtteranceErrored => Js.Rejected
                          | ElevenLabs.UtteranceSilent => Js.Pending
                          end
                     else Js.Rejected)).
  { unfold ElevenLabs.speakWithBrowserTTS.
    destruct (ElevenLabs.speechSynthesisInWindow env); simpl.
    - split; [now left|]. split; [intros _; right; now left|].
      destruct (ElevenLabs.uttered env); reflexivity.
    - split; [now left|]. split; [discriminate | reflexivity]. }
  destruct Hb as [Hb1 [Hb2 Hb3]].
  unfold ElevenLabs.remoteFails in Hfail.
  unfold ElevenLabs.speakWithElevenLabs.
  destruct (ElevenLabs.keyConfigured (ElevenLabs.ELEVENLABS_API_KEY env)).
  - simpl in Hfail |- *.
    destruct (ElevenLabs.fetched env) as [|ok body].
    + simpl. split; [now right|]. split; [intros H; right; now apply Hb2|].
      exact Hb3.
    + destruct ok, body; try discriminate; simpl;
        (split; [now right|]); (split; [intros H; right; now apply Hb2|]);
        exact Hb3.
  - simpl. auto.
Qed.

(** The provider answers 401 for a Hindi reply, and the browser speaks
    it to its end. *)
Lemma remote_failure_falls_back_witness :
  let env :=
    {| ElevenLabs.ELEVENLABS_API_KEY := Some "sk_test"%string;
       ElevenLabs.fetched := ElevenLabs.FetchResponded false true;
       ElevenLabs.audio := ElevenLabs.AudioSilent;
       ElevenLabs.speechSynthesisInWindow := true;
       ElevenLabs.uttered := ElevenLabs.UtteranceEnded |} in
  In (ElevenLabs.CallBrowserTTS [2344; 2350; 2360; 2381; 2340; 2375] "hi")
     (ElevenLabs.effects
        (ElevenLabs.speakWithElevenLabs env
           [2344; 2350; 2360; 2381; 2340; 2375] "hi"))
  /\ (ElevenLabs.speechSynthesisInWindow env = true ->
      In (ElevenLabs.SynthSpeak [2344; 2350; 2360; 2381; 2340; 2375] "hi-IN")
         (ElevenLabs.effects
            (ElevenLabs.speakWithElevenLabs env
               [2344; 2350; 2360; 2381; 2340; 2375] "hi")))
  /\ ElevenLabs.promise
       (ElevenLabs.speakWithElevenLabs env
          [2344; 2350; 2360; 2381; 2340; 2375] "hi")
     = Js.Resolved.
Proof.
  intros env.
  exact (remote_failure_falls_back env [2344; 2350; 2360; 2381; 2340; 2375]
           "hi"%string eq_refl).
Defined.

(** C10. [speak] of the voice interface resolves and never rejects:
    whether the utterance ends, fires [error], or the set-up throws,
    the promise is resolved and [isSpeaking] is false again, nothing
    else of the state having moved; and whatever events the utterance
    fires, the promise is never rejected. *)
Theorem speak_always_resolves :
  forall (voices : VoiceInterface.Voices) (text : Js.jsString)
         (outcome : VoiceInterface.speechOutcome) (s : VoiceInterface.State),
    VoiceInterface.speakPromise (VoiceInterface.speak voices text outcome s)
    = Js.Resolved
    /\ VoiceInterface.speakState (VoiceInterface.speak voices text outcome s)
       = VoiceInterface.setIsSpeaking false s
    /\ forall (throws : bool) (events : list VoiceInterface.utteranceEvent),
         VoiceInterface.speakPromise
           (fold_left (fun sp e => VoiceInterface.speak_event e sp) events
              (VoiceInterface.speak_setup voices text throws s))
         <> Js.Rejected.
Proof.
  intros voices text outcome s. split; [|split].
  - destruct outcome; reflexivity.
  - destruct outcome; reflexivity.
  - intros throws events.
    assert (H : VoiceInterface.speakPromise
                  (VoiceInterface.speak_setup voices text throws s)
                <> Js.Rejected)
      by (destruct throws; discriminate).
    revert H. generalize (VoiceInterface.speak_setup voices text throws s).
    induction events as [|e events IH]; intros sp H; [exact H|].
    simpl. apply IH. unfold VoiceInterface.speak_event.
    destruct (VoiceInterface.spoken sp); [|exact H].
    destruct e; simpl; destruct (VoiceInterface.speakPromise sp);
      try discriminate; congruence.
Qed.

(** C8, as the specification states it, fails: the component keeps no
    state for "transcribing".  After the recorder has stopped and while
    the transcription request is in flight, a tap on the microphone, or
    [startListening], starts a second recording.  And while a recording
    runs, the [startListening] of the render before it (the one a
    follow-up timer calls) starts a second recorder beside it. *)
Lemma start_while_transcribing_counterexample :
  VoiceInterface.phase VoiceInterface.transcribingState
  = VoiceInterface.PhaseTranscribing
  /\ VoiceInterface.recorders VoiceInterface.transcribingState
     = [VoiceInterface.Inactive]
  /\ VoiceInterface.recorders
       (VoiceInterface.toggleListening
          (VoiceInterface.render VoiceInterface.transcribingState)
          VoiceInterface.Granted VoiceInterface.transcribingState)
     = [VoiceInterface.Inactive; VoiceInterface.Recording]
  /\ VoiceInterface.recorders
       (VoiceInterface.startListening
          (VoiceInterface.render VoiceInterface.transcribingState)
          VoiceInterface.Granted VoiceInterface.transcribingState)
     = [VoiceInterface.Inactive; VoiceInterface.Recording]
  /\ VoiceInterface.phase
       (VoiceInterface.startListening
          (VoiceInterface.render VoiceInterface.transcribingState)
          VoiceInterface.Granted VoiceInterface.transcribingState)
     = VoiceInterface.PhaseRecording
  /\ VoiceInterface.phase VoiceInterface.recordingState
     = VoiceInterface.PhaseRecording
  /\ VoiceInterface.recorders
       (VoiceInterface.startListening
          (VoiceInterface.render VoiceInterface.initialState)
          VoiceInterface.Granted VoiceInterface.recordingState)
     = [VoiceInterface.Recording; VoiceInterface.Recording].
Proof. repeat split. Qed.

(** C8, amended.  A handler reads the [isListening] and
    [showTextInput] of the render that created it.  Where that
    [isListening] is true, [startListening] does nothing and
    [toggleListening] starts nothing: it stops the recorder in
    [mediaRecorderRef], leaves every other recorder as it is, creates
    none, adds no error to the history and sets [isListening] to false.
    Where that [showTextInput] is true, [startListening] does nothing.
    Where both are false, [startListening] with the microphone granted
    starts one more recording, whatever the component does by then: a
    recording started since goes on beside it, and so does a
    transcription in flight. *)
Theorem start_ignored_while_listening :
  forall (r : VoiceInterface.Render) (s : VoiceInterface.State)
         (media : VoiceInterface.userMedia),
    (VoiceInterface.r_isListening r = true ->
     VoiceInterface.startListening r media s = s
     /\ length (VoiceInterface.recorders
                  (VoiceInterface.toggleListening r media s))
        = length (VoiceInterface.recorders s)
     /\ (forall i,
            VoiceInterface.mediaRecorderRef s = Some i ->
            VoiceInterface.isRecording
              (nth i (VoiceInterface.recorders
                        (VoiceInterface.toggleListening r media s))
                   VoiceInterface.Inactive)
            = false
            /\ forall j,
                 j <> i ->
                 nth j (VoiceInterface.recorders
                          (VoiceInterface.toggleListening r media s))
                     VoiceInterface.Inactive
                 = nth j (VoiceInterface.recorders s) VoiceInterface.Inactive)
     /\ (VoiceInterface.mediaRecorderRef s = None ->
         VoiceInterface.recorders (VoiceInterface.toggleListening r media s)
         = VoiceInterface.recorders s)
     /\ VoiceInterface.commandHistory
          (VoiceInterface.toggleListening r media s)
        = VoiceInterface.commandHistory s
     /\ VoiceInterface.isListening (VoiceInterface.toggleListening r media s)
        = false)
    /\ (VoiceInterface.r_showTextInput r = true ->
        VoiceInterface.startListening r media s = s)
    /\ (VoiceInterface.r_isListening r = false ->
        VoiceInterface.r_showTextInput r = false ->
        VoiceInterface.recorders
          (VoiceInterface.startListening r VoiceInterface.Granted s)
        = VoiceInterface.recorders s ++ [VoiceInterface.Recording]
        /\ VoiceInterface.activeRecordings
             (VoiceInterface.startListening r VoiceInterface.Granted s)
           = S (VoiceInterface.activeRecordings s)
        /\ VoiceInterface.commandHistory
             (VoiceInterface.startListening r VoiceInterface.Granted s)
           = VoiceInterface.commandHistory s).
Proof.
  intros r s media. split; [|split].
  - intros H.
    destruct (HandlerFacts.toggleListening_stop r media s H) as [Hr [Hh Hl]].
    split.
    { unfold VoiceInterface.startListening. now rewrite H. }
    rewrite Hr, Hh, Hl.
    split.
    { destruct (VoiceInterface.mediaRecorderRef s) as [i|]; [|reflexivity].
      apply HandlerFacts.setRecorder_length. }
    split.
    { intros i Hi. rewrite Hi. split.
      - apply HandlerFacts.setRecorder_stops.
      - intros j Hj. now apply HandlerFacts.setRecorder_others. }
    split; [|now split].
    intros Hn. now rewrite Hn.
  - intros H. unfold VoiceInterface.startListening. rewrite H.
    now rewrite andb_false_r.
  - intros H1 H2. unfold VoiceInterface.startListening,
      VoiceInterface.toggleListening, VoiceInterface.activeRecordings.
    rewrite H1, H2. simpl. split; [reflexivity|]. split; [|reflexivity].
    rewrite filter_app, length_app. simpl. lia.
Qed.

(** A tap while the first recording runs stops it; the [startListening]
    of the render before that recording, run while it goes on, starts a
    second one. *)
Lemma start_ignored_while_listening_witness :
  VoiceInterface.isRecording
    (nth 0 (VoiceInterface.recorders
              (VoiceInterface.toggleListening
                 (VoiceInterface.render VoiceInterface.recordingState)
                 VoiceInterface.Granted VoiceInterface.recordingState))
         VoiceInterface.Inactive)
  = false
  /\ VoiceInterface.recorders
       (VoiceInterface.startListening
          (VoiceInterface.render VoiceInterface.initialState)
          VoiceInterface.Granted VoiceInterface.recordingState)
     = VoiceInterface.recorders VoiceInterface.recordingState
       ++ [VoiceInterface.Recording].
Proof.
  split.
  - exact (proj1 (proj1 (proj2 (proj2 (proj1
             (start_ignored_while_listening
                (VoiceInterface.render VoiceInterface.recordingState)
                VoiceInterface.recordingState VoiceInterface.Granted)
             eq_refl))) 0%nat eq_refl)).
  - exact (proj1 (proj2 (proj2
             (start_ignored_while_listening
                (VoiceInterface.render VoiceInterface.initialState)
                VoiceInterface.recordingState VoiceInterface.Granted))
             eq_refl eq_refl)).
Defined.

(** C9, as the specification states it, fails on two counts.  A reply
    that asks a question to a typed command sets the timer, but when it
    fires no capture starts: [startListening] sees the text input shown.
    And nothing cancels the timer: when the user starts a new command
    before it fires, it still fires and starts a recording. *)
Lemma followUp_counterexample :
  let reply := Js.codeUnits "Is this correct?" in
  VoiceInterface.needsVoiceInput reply = true
  /\ (let s := VoiceInterface.scheduleFollowUp
                 (VoiceInterface.render VoiceInterface.textModeState) reply
                 VoiceInterface.textModeState in
      VoiceInterface.timers s <> []
      /\ VoiceInterface.recorders
           (VoiceInterface.fireTimer VoiceInterface.Granted s) = []
      /\ VoiceInterface.isListening
           (VoiceInterface.fireTimer VoiceInterface.Granted s) = false)
  /\ (let s := VoiceInterface.handleVoiceCommand_begin
                 (Js.codeUnits "Show transactions")
                 (VoiceInterface.scheduleFollowUp
                    (VoiceInterface.render VoiceInterface.initialState) reply
                    VoiceInterface.initialState) in
      VoiceInterface.timers s <> []
      /\ VoiceInterface.recorders
           (VoiceInterface.fireTimer VoiceInterface.Granted s)
         = [VoiceInterface.Recording]
      /\ VoiceInterface.isListening
           (VoiceInterface.fireTimer VoiceInterface.Granted s) = true).
Proof. repeat split; discriminate. Qed.

(** C9, amended.  After the speech output, a timer of 500 ms is set if
    and only if the reply, in lower case, contains one of the eight
    phrases or ends with a question mark.  The timer calls
    [startListening] of the handler that set it: when it fires,
    recording starts only if that handler saw neither a recording in
    progress nor the text input.  No handler removes a timer: a tap on
    the microphone, a new command and the switch to text input leave it
    pending. *)
Theorem followUp_timer :
  forall (r : VoiceInterface.Render) (reply : Js.jsString)
         (s : VoiceInterface.State),
    (VoiceInterface.timers (VoiceInterface.scheduleFollowUp r reply s)
     = VoiceInterface.timers s
       ++ [{| VoiceInterface.delay := 500; VoiceInterface.closure := r |}]
     <->
     (exists phrase,
         In phrase VoiceInterface.followUpPhrases
         /\ exists pre post, Js.toLowerCase reply = pre ++ phrase ++ post)
     \/ (exists pre, Js.toLowerCase reply = pre ++ Js.codeUnits "?"))
    /\ (VoiceInterface.needsVoiceInput reply = false ->
        VoiceInterface.scheduleFollowUp r reply s = s)
    /\ (forall media rest,
          VoiceInterface.timers s
          = {| VoiceInterface.delay := 500; VoiceInterface.closure := r |}
            :: rest ->
          VoiceInterface.fireTimer media s
          = if negb (VoiceInterface.r_isListening r)
               && negb (VoiceInterface.r_showTextInput r)
            then VoiceInterface.toggleListening r media
                   (VoiceInterface.withTimers rest s)
            else VoiceInterface.withTimers rest s)
    /\ (forall r' media,
          VoiceInterface.timers (VoiceInterface.toggleListening r' media s)
          = VoiceInterface.timers s)
    /\ (forall text,
          VoiceInterface.timers (VoiceInterface.handleVoiceCommand_begin text s)
          = VoiceInterface.timers s)
    /\ (forall b,
          VoiceInterface.timers (VoiceInterface.setShowTextInput b s)
          = VoiceInterface.timers s).
Proof.
  intros r reply s. split; [|split; [|split; [|split; [|split]]]].
  - rewrite <- HandlerFacts.needsVoiceInput_spec.
    unfold VoiceInterface.scheduleFollowUp.
    destruct (VoiceInterface.needsVoiceInput reply); simpl.
    + split; reflexivity.
    + split; [|discriminate]. intros H.
      apply (f_equal (@length VoiceInterface.timer)) in H.
      rewrite length_app in H. simpl in H. lia.
  - intros H. unfold VoiceInterface.scheduleFollowUp. now rewrite H.
  - intros media rest H. unfold VoiceInterface.fireTimer,
      VoiceInterface.startListening. rewrite H. reflexivity.
  - intros r' media. unfold VoiceInterface.toggleListening.
    destruct (VoiceInterface.r_isListening r').
    + destruct (VoiceInterface.mediaRecorderRef s) as [i|];
        [destruct (VoiceInterface.isRecording _)|]; reflexivity.
    + destruct media; reflexivity.
  - reflexivity.
  - reflexivity.
Qed.

(** "What is the phone number?" asked of a voice command: the timer is
    set with 500 ms. *)
Lemma followUp_timer_witness :
  VoiceInterface.timers
    (VoiceInterface.scheduleFollowUp
       (VoiceInterface.render VoiceInterface.initialState)
       (Js.codeUnits "Please tell me the Phone Number")
       VoiceInterface.initialState)
  = [{| VoiceInterface.delay := 500;
        VoiceInterface.closure :=
          VoiceInterface.render VoiceInterface.initialState |}].
Proof.
  apply (proj2 (proj1 (followUp_timer
                         (VoiceInterface.render VoiceInterface.initialState)
                         (Js.codeUnits "Please tell me the Phone Number")
                         VoiceInterface.initialState))).
  left. exists (Js.codeUnits "phone number"). split.
  - vm_compute. tauto.
  - exists (Js.codeUnits "please tell me the "), []. reflexivity.
Defined.

(* ================================================================== *)
(** ** Further properties *)

(** X1. When the microphone cannot be acquired, [toggleListening]
    starts no recorder, adds one error entry to the history and shows
    the text input. *)
Theorem microphone_denied_shows_text_input :
  forall s : VoiceInterface.State,
    VoiceInterface.isListening s = false ->
    VoiceInterface.toggleListening (VoiceInterface.render s)
      VoiceInterface.Denied s
    = VoiceInterface.setShowTextInput true
        (VoiceInterface.pushHistory
           {| VoiceInterface.entryText :=
                Js.codeUnits "Could not access microphone. Please check permissions or use text input.";
              VoiceInterface.entryType_ := VoiceInterface.ErrorEntry |}
           (VoiceInterface.setTranscript [] s))
    /\ VoiceInterface.recorders
         (VoiceInterface.toggleListening (VoiceInterface.render s)
            VoiceInterface.Denied s)
       = VoiceInterface.recorders s
    /\ VoiceInterface.isListening
         (VoiceInterface.toggleListening (VoiceInterface.render s)
            VoiceInterface.Denied s)
       = false.
Proof.
  intros s H. unfold VoiceInterface.toggleListening, VoiceInterface.render.
  cbn [VoiceInterface.r_isListening]. rewrite H.
  repeat split. simpl. exact H.
Qed.

Lemma microphone_denied_shows_text_input_witness :
  VoiceInterface.showTextInput
    (VoiceInterface.toggleListening
       (VoiceInterface.render VoiceInterface.initialState)
       VoiceInterface.Denied VoiceInterface.initialState)
  = true.
Proof.
  rewrite (proj1 (microphone_denied_shows_text_input
                    VoiceInterface.initialState eq_refl)).
  reflexivity.
Defined.

(** X2. A response that needs no PIN and whose intent is balance or
    history makes one call of [loadUserData] and changes nothing else;
    any other response that needs no PIN changes nothing. *)
Theorem balance_and_history_refresh :
  forall (response : Api.voiceResponse) (s : App.State),
    App.needsPin response = false ->
    (Api.intent response = "balance"%string
     \/ Api.intent response = "history"%string ->
     App.handleVoiceResponse response s = App.loadUserData s)
    /\ (Api.intent response <> "balance"%string ->
        Api.intent response <> "history"%string ->
        App.handleVoiceResponse response s = s).
Proof.
  intros response s H. unfold App.handleVoiceResponse. rewrite H. split.
  - intros [E | E]; rewrite E; reflexivity.
  - intros E1 E2. apply String.eqb_neq in E1, E2. now rewrite E1, E2.
Qed.

(** "What's my balance?": the ledger snapshot is refreshed and no PIN
    is asked for. *)
Lemma balance_and_history_refresh_witness :
  let response :=
    {| Api.intent := "balance";
       Api.message := Js.codeUnits "Your balance is 1500 rupees";
       Api.data := None |} in
  App.handleVoiceResponse response App.initialState
  = App.loadUserData App.initialState.
Proof.
  intros response.
  exact (proj1 (balance_and_history_refresh response App.initialState
                  eq_refl) (or_introl eq_refl)).
Defined.

(** X3. The timer of the follow-up prompt runs [startListening] of the
    render that set it, so its guard does not see a recording the user
    has started since: when the user taps the microphone before the
    timer fires, the timer starts a second recorder beside the first. *)
Theorem followUp_timer_misses_new_recording :
  forall (s : VoiceInterface.State) (reply : Js.jsString),
    VoiceInterface.isListening s = false ->
    VoiceInterface.showTextInput s = false ->
    VoiceInterface.timers s = [] ->
    VoiceInterface.needsVoiceInput reply = true ->
    VoiceInterface.recorders
      (VoiceInterface.fireTimer VoiceInterface.Granted
         (VoiceInterface.toggleListening
            (VoiceInterface.render
               (VoiceInterface.scheduleFollowUp (VoiceInterface.render s)
                  reply s))
            VoiceInterface.Granted
            (VoiceInterface.scheduleFollowUp (VoiceInterface.render s)
               reply s)))
    = VoiceInterface.recorders s
      ++ [VoiceInterface.Recording; VoiceInterface.Recording].
Proof.
  intros s reply H1 H2 H3 H4.
  unfold VoiceInterface.scheduleFollowUp. rewrite H4, H3.
  unfold VoiceInterface.fireTimer, VoiceInterface.startListening,
    VoiceInterface.toggleListening, VoiceInterface.render.
  simpl. rewrite H1, H2. simpl. now rewrite <- app_assoc.
Qed.

Lemma followUp_timer_misses_new_recording_witness :
  VoiceInterface.activeRecordings
    (VoiceInterface.fireTimer VoiceInterface.Granted
       (VoiceInterface.toggleListening
          (VoiceInterface.render
             (VoiceInterface.scheduleFollowUp
                (VoiceInterface.render VoiceInterface.initialState)
                (Js.codeUnits "Is this correct?")
                VoiceInterface.initialState))
          VoiceInterface.Granted
          (VoiceInterface.scheduleFollowUp
             (VoiceInterface.render VoiceInterface.initialState)
             (Js.codeUnits "Is this correct?")
             VoiceInterface.initialState)))
  = 2%nat.
Proof.
  unfold VoiceInterface.activeRecordings.
  rewrite (followUp_timer_misses_new_recording VoiceInterface.initialState
             (Js.codeUnits "Is this correct?")
             eq_refl eq_refl eq_refl eq_refl).
  reflexivity.
Defined.
